(** * hub_utils: pushing checkpoints and model cards to a model hub

    A shallow embedding of [src/diffusers/hub_utils.py].  The module is glue
    code around collaborators that live outside of it (the hub client, git,
    the file system, the pipeline object, the logger).  Every interaction
    with a collaborator is a node of a program tree; the tree is run against
    an arbitrary handler, which plays the collaborators, and the run returns
    the outcome of the function together with the chronological list of the
    interactions and their replies.  Properties are stated for every
    handler. *)

From stdpp Require Import base option list strings gmap.
From Stdlib Require Import ZArith Ascii String.

Local Open Scope Z_scope.

(** ** Strings and paths *)

Definition nl : string := String "010"%char EmptyString.

Definition slash : ascii := "/"%char.

(** [sep in s] for a one-character separator. *)
Fixpoint contains_char (sep : ascii) (s : string) : bool :=
  match s with
  | EmptyString => false
  | String c s' => if Ascii.eqb c sep then true else contains_char sep s'
  end.

(** [s.split(sep)] for a one-character separator: never empty, keeps the
    empty fields. *)
Fixpoint str_split (sep : ascii) (s : string) : list string :=
  match s with
  | EmptyString => [EmptyString]
  | String c s' =>
      if Ascii.eqb c sep then EmptyString :: str_split sep s'
      else match str_split sep s' with
           | [] => [String c EmptyString]
           | w :: ws => String c w :: ws
           end
  end.

(** [l[-1]] on the fields of a split, of which there is always one. *)
Definition last_field (l : list string) : string := List.last l EmptyString.

Definition is_absolute (p : string) : bool :=
  match p with
  | String c _ => Ascii.eqb c slash
  | EmptyString => false
  end.

(** [pathlib.PurePosixPath(p).name]: the final component of the path, where
    empty components and [.] components do not count; empty when there is
    none (the root, the empty path). *)
Definition Path_name (p : string) : string :=
  last_field
    (EmptyString ::
     filter (fun w => w ≠ EmptyString ∧ w ≠ "."%string) (str_split slash p)).

(** [os.path.join(a, b)] on POSIX. *)
Definition os_path_join (a b : string) : string :=
  if is_absolute b then b
  else match a with
       | EmptyString => b
       | _ => if Ascii.eqb (List.last (list_ascii_of_string a) " "%char) slash
              then a +:+ b else a +:+ "/" +:+ b
       end.

(** ** Exceptions and outcomes *)

(** The classes that the module tells apart: [EnvironmentError] (an alias of
    [OSError], with its subclasses) is the only class it catches. *)
Inductive exn_class : Type :=
  | EnvironmentError
  | KeyError
  | IndexError
  | AttributeError
  | Exception.

Record exn : Type := mk_exn { exn_cls : exn_class; exn_str : string }.

Definition is_EnvironmentError (e : exn) : bool :=
  match exn_cls e with EnvironmentError => true | _ => false end.

Inductive result (A : Type) : Type :=
  | Ok (a : A)
  | Raised (e : exn).
Arguments Ok {A} a.
Arguments Raised {A} e.

(** ** The collaborators *)

(** Handles of the objects that the module receives or creates. *)
Definition Repository := nat.
Definition CommandInProgress := nat.
Definition DiffusionPipeline := nat.

(** [use_auth_token]: [True] (use the locally cached credential) or an
    explicit token. *)
Inductive auth : Type :=
  | AuthCached
  | AuthToken (token : string).

(** What [Repository.push_to_hub] returns: the commit url when blocking, the
    url and the command tracking the push otherwise. *)
Inductive push_result : Type :=
  | PushUrl (url : string)
  | PushAsync (url : string) (command : CommandInProgress).

(** The interactions, indexed by the type of their reply.  A reply of type
    [result R] belongs to a call that may raise; the read of the attribute
    [repo.command_queue], [os.path.exists], [HfFolder.get_token] (it gives
    [None] when no token is stored) and the logger do not raise.  The
    property [is_done] runs code of the hub client and is a call.
    An argument of type [option] that is [None] in [Repository_init] is a
    keyword argument that the call does not pass. *)
Inductive call : Type → Type :=
  | HfFolder_get_token : call (option string)
  | whoami (token : option string) : call (result (gmap string string))
  | os_getcwd : call (result string)
  | Repository_init (local_dir clone_from : string) (use_auth_token : auth)
      (private : option bool) : call (result Repository)
  | shutil_rmtree (path : string) : call (result unit)
  | git_pull (repo : Repository) : call (result unit)
  | os_path_exists (path : string) : call bool
  | open_w_write (path : string) (encoding : option string) (data : string) :
      call (result unit)
  | os_makedirs (path : string) (exist_ok : bool) : call (result unit)
  | logger_info (msg : string) : call unit
  | logger_error (msg : string) : call unit
  | save_pretrained (pipeline : DiffusionPipeline) (dir : string) :
      call (result unit)
  | command_queue (repo : Repository) : call (list (option CommandInProgress))
  | is_done (command : CommandInProgress) : call (result bool)
  | process_kill (command : CommandInProgress) : call (result unit)
  | repo_push_to_hub (repo : Repository) (commit_message : option string)
      (blocking auto_lfs_prune : bool) : call (result push_result).

(** ** Programs *)

Inductive prog (A : Type) : Type :=
  | Ret (a : A)
  | Raise (e : exn)
  | Vis {R : Type} (c : call R) (k : R → prog A).
Arguments Ret {A} a.
Arguments Raise {A} e.
Arguments Vis {A R} c k.

Fixpoint bind {A B : Type} (p : prog A) (f : A → prog B) : prog B :=
  match p with
  | Ret a => f a
  | Raise e => Raise e
  | Vis c k => Vis c (fun r => bind (k r) f)
  end.

(** [try: p  except: h]. *)
Fixpoint try_except {A : Type} (p : prog A) (h : exn → prog A) : prog A :=
  match p with
  | Ret a => Ret a
  | Raise e => h e
  | Vis c k => Vis c (fun r => try_except (k r) h)
  end.

(** An interaction that does not raise. *)
Definition ask {R : Type} (c : call R) : prog R := Vis c Ret.

(** An interaction that may raise: the exception propagates. *)
Definition invoke {R : Type} (c : call (result R)) : prog R :=
  Vis c (fun r => match r with Ok a => Ret a | Raised e => Raise e end).

Declare Scope prog_scope.
Delimit Scope prog_scope with prog.
Notation "x <- p ;; q" := (bind p (fun x => q))
  (at level 100, p at next level, right associativity) : prog_scope.
Notation "p ;; q" := (bind p (fun _ => q))
  (at level 100, right associativity) : prog_scope.
Local Open Scope prog_scope.

(** ** Running a program *)

(** One interaction with its reply. *)
Inductive event : Type :=
  | Ev {R : Type} (c : call R) (r : R).

(** A handler plays the collaborators: it replies to every call and keeps a
    state of its own. *)
Definition handler (S : Type) : Type := ∀ R : Type, call R → S → R * S.

Fixpoint run {S A : Type} (h : handler S) (p : prog A) (s : S)
  : result A * S * list event :=
  match p with
  | Ret a => (Ok a, s, [])
  | Raise e => (Raised e, s, [])
  | Vis c k =>
      let '(r, s1) := h _ c s in
      let '(o, s2, tr) := run h (k r) s1 in
      (o, s2, Ev c r :: tr)
  end.

Definition outcome {S A : Type} (x : result A * S * list event) : result A :=
  x.1.1.
Definition final {S A : Type} (x : result A * S * list event) : S := x.1.2.
Definition trace {S A : Type} (x : result A * S * list event) : list event :=
  x.2.

(** ** The run configuration *)

(** The fields of [args] that the module reads. *)
Record Args : Type := {
  local_rank : Z;
  hub_token : option string;
  hub_model_id : option string;
  hub_private_repo : bool;
  hub_strategy : string;
  output_dir : string;
  overwrite_output_dir : bool
}.

(** [args.local_rank in [-1, 0]]. *)
Definition is_primary (args : Args) : bool :=
  (local_rank args =? -1) || (local_rank args =? 0).

(** ** YAML front matter *)

(** The values that the model card's metadata holds. *)
Inductive yaml_value : Type :=
  | YStr (s : string)
  | YList (items : list string).

(** [yaml.dump(d, sort_keys=False)] of PyYAML on a dict of plain scalars and
    lists of plain scalars, in block style, the keys in insertion order. *)
Definition yaml_entry (kv : string * yaml_value) : string :=
  match kv.2 with
  | YStr s => kv.1 +:+ ": " +:+ s +:+ nl
  | YList items =>
      kv.1 +:+ ":" +:+ nl +:+
      foldr (fun x acc => "- " +:+ x +:+ nl +:+ acc) EmptyString items
  end.

Definition yaml_dump (d : list (string * yaml_value)) : string :=
  match d with
  | [] => "{}" +:+ nl
  | _ => foldr (fun kv acc => yaml_entry kv +:+ acc) EmptyString d
  end.

(** ** The module *)

Definition AUTOGENERATED_TRAINER_COMMENT : string :=
  nl +:+
  "<!-- This model card has been generated automatically according to the information the Trainer had access to. You"
  +:+ nl +:+
  "should probably proofread and complete it, then remove this comment. -->"
  +:+ nl.

(** [d[key]] on a dict. *)
Definition dict_get (d : gmap string string) (key : string) : prog string :=
  match d !! key with
  | Some v => Ret v
  | None => Raise (mk_exn KeyError key)
  end.

Definition get_full_repo_name (model_id : string)
    (organization : option string) (token : option string) : prog string :=
  token <- match token with
           | None => ask HfFolder_get_token
           | Some t => Ret (Some t)
           end ;;
  match organization with
  | None =>
      identity <- invoke (whoami token) ;;
      username <- dict_get identity "name" ;;
      Ret (username +:+ "/" +:+ model_id)
  | Some organization => Ret (organization +:+ "/" +:+ model_id)
  end.

(** [Path(p).absolute()]: the working directory is read only for a relative
    path. *)
Definition Path_absolute (p : string) : prog string :=
  if is_absolute p then Ret p
  else cwd <- invoke os_getcwd ;; Ret (cwd +:+ "/" +:+ p).

(** [True if args.hub_token is None else args.hub_token]. *)
Definition use_auth_token_of (args : Args) : auth :=
  match hub_token args with
  | None => AuthCached
  | Some t => AuthToken t
  end.

Definition gitignore_path (args : Args) : string :=
  os_path_join (output_dir args) ".gitignore".

Definition readme_path (args : Args) : string :=
  os_path_join (output_dir args) "README.md".

Definition init_git_repo (args : Args) (at_init : bool)
  : prog (option Repository) :=
  if negb (is_primary args) then Ret None
  else
    let use_auth_token := use_auth_token_of args in
    repo_name <- match hub_model_id args with
                 | None =>
                     p <- Path_absolute (output_dir args) ;; Ret (Path_name p)
                 | Some id => Ret id
                 end ;;
    repo_name <- (if negb (contains_char slash repo_name)
                  then get_full_repo_name repo_name None (hub_token args)
                  else Ret repo_name) ;;
    repo <- try_except
              (invoke (Repository_init (output_dir args) repo_name
                         use_auth_token (Some (hub_private_repo args))))
              (fun exc =>
                 if is_EnvironmentError exc then
                   if overwrite_output_dir args && at_init then
                     (* Try again after wiping output_dir *)
                     invoke (shutil_rmtree (output_dir args)) ;;
                     invoke (Repository_init (output_dir args) repo_name
                               use_auth_token None)
                   else Raise exc
                 else Raise exc) ;;
    invoke (git_pull repo) ;;
    (* By default, ignore the checkpoint folders *)
    present <- ask (os_path_exists (gitignore_path args)) ;;
    (if negb present
        && negb (String.eqb (hub_strategy args) "all_checkpoints")
     then invoke (open_w_write (gitignore_path args) (Some "utf-8"%string)
                    "checkpoint-*/")
     else Ret tt) ;;
    Ret (Some repo).

(** [model_card] as [create_model_card] builds it. *)
Definition model_card_text (model_name : string) : string :=
  let model_card := EmptyString in
  let metadata :=
    yaml_dump [("license"%string, YStr "apache-2.0");
               ("tags"%string, YList ["pytorch"%string; "diffusers"%string])] in
  let model_card :=
    if (0 <? String.length metadata)%nat
    then "---" +:+ nl +:+ metadata +:+ "---" +:+ nl
    else model_card in
  let model_card := model_card +:+ AUTOGENERATED_TRAINER_COMMENT in
  model_card +:+ (nl +:+ "# " +:+ model_name +:+ nl +:+ nl).

Definition create_model_card (args : Args) (model_name : string) : prog unit :=
  if negb (is_primary args) then Ret tt
  else invoke (open_w_write (readme_path args) None
                 (model_card_text model_name)).

(** [q[-1]]. *)
Definition index_last {A : Type} (q : list A) : prog A :=
  match last q with
  | Some x => Ret x
  | None => Raise (mk_exn IndexError "list index out of range")
  end.

(** An attribute of [repo.command_queue[-1]], which may be [None]. *)
Definition attr_of (c : option CommandInProgress) (name : string)
  : prog CommandInProgress :=
  match c with
  | Some cmd => Ret cmd
  | None =>
      Raise (mk_exn AttributeError
               ("'NoneType' object has no attribute '" +:+ name +:+ "'"))
  end.

(** The keyword arguments [**kwargs] of the source are not read by its body
    and are left out. *)
Definition push_to_hub (args : Args) (pipeline : DiffusionPipeline)
    (repo : Repository) (commit_message : option string) (blocking : bool)
  : prog (option push_result) :=
  let model_name :=
    match hub_model_id args with
    | None => Path_name (output_dir args)
    | Some id => last_field (str_split slash id)
    end in
  let output_dir := output_dir args in
  invoke (os_makedirs output_dir true) ;;
  ask (logger_info ("Saving pipeline checkpoint to " +:+ output_dir)) ;;
  invoke (save_pretrained pipeline output_dir) ;;
  (* Only push from one node. *)
  if negb (is_primary args) then Ret None
  else
    (* Cancel any async push in progress if blocking=True. *)
    cancel <-
      (if blocking then
         q <- ask (command_queue repo) ;;
         if (0 <? List.length q)%nat then
           q <- ask (command_queue repo) ;;
           c <- index_last q ;;
           if bool_decide (c ≠ None) then
             q <- ask (command_queue repo) ;;
             c <- index_last q ;;
             cmd <- attr_of c "is_done" ;;
             done <- invoke (is_done cmd) ;;
             Ret (negb done)
           else Ret false
         else Ret false
       else Ret false) ;;
    (if cancel : bool then
       q <- ask (command_queue repo) ;;
       c <- index_last q ;;
       cmd <- attr_of c "_process" ;;
       invoke (process_kill cmd)
     else Ret tt) ;;
    git_head_commit_url <-
      invoke (repo_push_to_hub repo commit_message blocking true) ;;
    (* push separately the model card to be independent from the rest of the
       model *)
    create_model_card args model_name ;;
    try_except
      (invoke (repo_push_to_hub repo (Some "update model card README.md"%string)
                 blocking true) ;;
       Ret tt)
      (fun exc =>
         if is_EnvironmentError exc then
           ask (logger_error
                  ("Error pushing update to the model card. Please read logs and retry."
                   +:+ nl +:+ "$" +:+ exn_str exc))
         else Raise exc) ;;
    Ret (Some git_head_commit_url).

(** *** The blocks of [init_git_repo]

    The body of [init_git_repo] on the primary participant, cut in two: the
    computation of the repository name, and everything from the first
    [Repository(...)] call on.  [init_git_repo_run] below shows that running
    the one after the other is running [init_git_repo]. *)

Definition init_repo_name (args : Args) : prog string :=
  repo_name <- match hub_model_id args with
               | None =>
                   p <- Path_absolute (output_dir args) ;; Ret (Path_name p)
               | Some id => Ret id
               end ;;
  if negb (contains_char slash repo_name)
  then get_full_repo_name repo_name None (hub_token args)
  else Ret repo_name.

Definition init_from_bind (args : Args) (at_init : bool) (repo_name : string)
  : prog (option Repository) :=
  repo <- try_except
            (invoke (Repository_init (output_dir args) repo_name
                       (use_auth_token_of args) (Some (hub_private_repo args))))
            (fun exc =>
               if is_EnvironmentError exc then
                 if overwrite_output_dir args && at_init then
                   invoke (shutil_rmtree (output_dir args)) ;;
                   invoke (Repository_init (output_dir args) repo_name
                             (use_auth_token_of args) None)
                 else Raise exc
               else Raise exc) ;;
  invoke (git_pull repo) ;;
  present <- ask (os_path_exists (gitignore_path args)) ;;
  (if negb present
      && negb (String.eqb (hub_strategy args) "all_checkpoints")
   then invoke (open_w_write (gitignore_path args) (Some "utf-8"%string)
                  "checkpoint-*/")
   else Ret tt) ;;
  Ret (Some repo).

(** ** Reading a trace *)

(** One [Repository(...)] call: its arguments and its reply. *)
Record bind_attempt : Type := {
  bind_local_dir : string;
  bind_clone_from : string;
  bind_use_auth_token : auth;
  bind_private : option bool;
  bind_reply : result Repository
}.

Definition as_bind (e : event) : option bind_attempt :=
  match e with
  | Ev c r =>
      match c in call R return R → option bind_attempt with
      | Repository_init d n t p => fun r => Some (Build_bind_attempt d n t p r)
      | _ => fun _ => None
      end r
  end.

(** The [Repository(...)] calls of a trace, in order. *)
Definition binds (tr : list event) : list bind_attempt := omap as_bind tr.

(** One [repo.push_to_hub(...)] call. *)
Record push_attempt : Type := {
  push_repo : Repository;
  push_commit_message : option string;
  push_blocking : bool;
  push_auto_lfs_prune : bool;
  push_reply : result push_result
}.

Definition as_push (e : event) : option push_attempt :=
  match e with
  | Ev c r =>
      match c in call R return R → option push_attempt with
      | repo_push_to_hub rp m b p => fun r => Some (Build_push_attempt rp m b p r)
      | _ => fun _ => None
      end r
  end.

Definition pushes (tr : list event) : list push_attempt := omap as_push tr.

(** One file written: path, encoding, content, reply. *)
Definition as_write (e : event)
  : option (string * option string * string * result unit) :=
  match e with
  | Ev c r =>
      match c in call R
            return R → option (string * option string * string * result unit)
      with
      | open_w_write p enc data => fun r => Some (p, enc, data, r)
      | _ => fun _ => None
      end r
  end.

Definition writes (tr : list event)
  : list (string * option string * string * result unit) := omap as_write tr.

Definition as_rmtree (e : event) : option (string * result unit) :=
  match e with
  | Ev c r =>
      match c in call R return R → option (string * result unit) with
      | shutil_rmtree p => fun r => Some (p, r)
      | _ => fun _ => None
      end r
  end.

Definition rmtrees (tr : list event) : list (string * result unit) :=
  omap as_rmtree tr.

Definition as_kill (e : event) : option (CommandInProgress * result unit) :=
  match e with
  | Ev c r =>
      match c in call R return R → option (CommandInProgress * result unit) with
      | process_kill cmd => fun r => Some (cmd, r)
      | _ => fun _ => None
      end r
  end.

Definition kills (tr : list event) : list (CommandInProgress * result unit) :=
  omap as_kill tr.

Definition as_whoami (e : event)
  : option (option string * result (gmap string string)) :=
  match e with
  | Ev c r =>
      match c in call R
            return R → option (option string * result (gmap string string))
      with
      | whoami tok => fun r => Some (tok, r)
      | _ => fun _ => None
      end r
  end.

Definition whoamis (tr : list event)
  : list (option string * result (gmap string string)) := omap as_whoami tr.

(** The replies of the [.gitignore]/path existence tests. *)
Definition as_exists (e : event) : option (string * bool) :=
  match e with
  | Ev c r =>
      match c in call R return R → option (string * bool) with
      | os_path_exists p => fun r => Some (p, r)
      | _ => fun _ => None
      end r
  end.

Definition exists_tests (tr : list event) : list (string * bool) :=
  omap as_exists tr.

Definition as_done_query (e : event)
  : option (CommandInProgress * result bool) :=
  match e with
  | Ev c r =>
      match c in call R return R → option (CommandInProgress * result bool) with
      | is_done cmd => fun r => Some (cmd, r)
      | _ => fun _ => None
      end r
  end.

Definition done_queries (tr : list event)
  : list (CommandInProgress * result bool) := omap as_done_query tr.

Definition as_queue_read (e : event) : option (list (option CommandInProgress)) :=
  match e with
  | Ev c r =>
      match c in call R return R → option (list (option CommandInProgress)) with
      | command_queue _ => fun r => Some r
      | _ => fun _ => None
      end r
  end.

Definition queue_reads (tr : list event)
  : list (list (option CommandInProgress)) := omap as_queue_read tr.

(** The interactions that change the repository, the remote, the processes
    or the file system (everything but reads and log lines). *)
Definition mutates (e : event) : bool :=
  match e with
  | Ev c _ =>
      match c with
      | Repository_init _ _ _ _ | shutil_rmtree _ | git_pull _
      | open_w_write _ _ _ | os_makedirs _ _ | save_pretrained _ _
      | process_kill _ | repo_push_to_hub _ _ _ _ => true
      | _ => false
      end
  end.

(** The interactions that only look something up for the repository name. *)
Definition is_lookup (e : event) : bool :=
  match e with
  | Ev c _ =>
      match c with
      | HfFolder_get_token | whoami _ | os_getcwd => true
      | _ => false
      end
  end.

Definition mutations (tr : list event) : list event := List.filter mutates tr.

(** The part of a trace before its first push. *)
Fixpoint before_first_push (tr : list event) : list event :=
  match tr with
  | [] => []
  | e :: tr' =>
      match as_push e with
      | Some _ => []
      | None => e :: before_first_push tr'
      end
  end.

(** ** A simulated environment *)

(** A small, executable stand-in for the collaborators: an in-memory file
    map, scripted replies for the repository binds and the pushes, and a
    command queue to which a non-blocking push appends a running command. *)
Record Sim : Type := {
  sim_files : gmap string string;
  sim_stored_token : option string;
  sim_identity : result (gmap string string);
  sim_cwd : string;
  sim_binds : list (result Repository);
  sim_pushes : list (result push_result);
  sim_queue : list (option CommandInProgress);
  sim_running : list CommandInProgress;
  sim_killed : list CommandInProgress
}.

Definition sim_url : string := "https://hub.example/commit/1".

Definition under (dir path : string) : bool :=
  String.eqb dir path || String.prefix (dir +:+ "/") path.

Definition sim_set_files (f : gmap string string) (s : Sim) : Sim :=
  {| sim_files := f;
     sim_stored_token := sim_stored_token s;
     sim_identity := sim_identity s;
     sim_cwd := sim_cwd s;
     sim_binds := sim_binds s;
     sim_pushes := sim_pushes s;
     sim_queue := sim_queue s;
     sim_running := sim_running s;
     sim_killed := sim_killed s |}.

Definition sim_set_binds (l : list (result Repository)) (s : Sim) : Sim :=
  {| sim_files := sim_files s;
     sim_stored_token := sim_stored_token s;
     sim_identity := sim_identity s;
     sim_cwd := sim_cwd s;
     sim_binds := l;
     sim_pushes := sim_pushes s;
     sim_queue := sim_queue s;
     sim_running := sim_running s;
     sim_killed := sim_killed s |}.

Definition sim_set_pushes (l : list (result push_result)) (s : Sim) : Sim :=
  {| sim_files := sim_files s;
     sim_stored_token := sim_stored_token s;
     sim_identity := sim_identity s;
     sim_cwd := sim_cwd s;
     sim_binds := sim_binds s;
     sim_pushes := l;
     sim_queue := sim_queue s;
     sim_running := sim_running s;
     sim_killed := sim_killed s |}.

(** The command queue with the commands that still run and the ones that
    were killed. *)
Definition sim_set_commands (queue : list (option CommandInProgress))
    (running killed : list CommandInProgress) (s : Sim) : Sim :=
  {| sim_files := sim_files s;
     sim_stored_token := sim_stored_token s;
     sim_identity := sim_identity s;
     sim_cwd := sim_cwd s;
     sim_binds := sim_binds s;
     sim_pushes := sim_pushes s;
     sim_queue := queue;
     sim_running := running;
     sim_killed := killed |}.

Definition sim_handler : handler Sim := fun R c =>
  match c in call R return Sim → R * Sim with
  | HfFolder_get_token => fun s => (sim_stored_token s, s)
  | whoami _ => fun s => (sim_identity s, s)
  | os_getcwd => fun s => (Ok (sim_cwd s), s)
  | Repository_init _ _ _ _ => fun s =>
      match sim_binds s with
      | [] => (Ok 0%nat, s)
      | r :: rs => (r, sim_set_binds rs s)
      end
  | shutil_rmtree p => fun s =>
      (Ok tt,
       sim_set_files (filter (fun kv => under p kv.1 = false) (sim_files s)) s)
  | git_pull _ => fun s => (Ok tt, s)
  | os_path_exists p => fun s => (bool_decide (is_Some (sim_files s !! p)), s)
  | open_w_write p _ data => fun s =>
      (Ok tt, sim_set_files (<[p := data]> (sim_files s)) s)
  | os_makedirs _ _ => fun s => (Ok tt, s)
  | logger_info _ => fun s => (tt, s)
  | logger_error _ => fun s => (tt, s)
  | save_pretrained _ dir => fun s =>
      (Ok tt,
       sim_set_files
         (<[os_path_join dir "model_index.json" := "{}"%string]> (sim_files s))
         s)
  | command_queue _ => fun s => (sim_queue s, s)
  | is_done cmd => fun s => (Ok (bool_decide (cmd ∉ sim_running s)), s)
  | process_kill cmd => fun s =>
      (Ok tt,
       sim_set_commands (sim_queue s)
         (filter (fun c => c ≠ cmd) (sim_running s))
         (sim_killed s ++ [cmd]) s)
  | repo_push_to_hub _ _ blocking _ => fun s =>
      match sim_pushes s with
      | r :: rs => (r, sim_set_pushes rs s)
      | [] =>
          if blocking then (Ok (PushUrl sim_url), s)
          else
            let cmd := List.length (sim_queue s) in
            (Ok (PushAsync sim_url cmd),
             sim_set_commands (sim_queue s ++ [Some cmd])
               (sim_running s ++ [cmd]) (sim_killed s) s)
      end
  end.

(** An environment with nothing on disk, the user [alice] logged in and no
    scripted failure. *)
Definition sim0 : Sim := {|
  sim_files := ∅;
  sim_stored_token := Some "hf_cached"%string;
  sim_identity := Ok {[ "name"%string := "alice"%string ]};
  sim_cwd := "/home/alice";
  sim_binds := [];
  sim_pushes := [];
  sim_queue := [];
  sim_running := [];
  sim_killed := []
|}.

Definition args0 : Args := {|
  local_rank := -1;
  hub_token := None;
  hub_model_id := None;
  hub_private_repo := false;
  hub_strategy := "end";
  output_dir := "out/ddpm";
  overwrite_output_dir := false
|}.

(** A participant that is not the primary one. *)
Definition args_worker : Args := {|
  local_rank := 1;
  hub_token := None;
  hub_model_id := None;
  hub_private_repo := false;
  hub_strategy := "end";
  output_dir := "out/ddpm";
  overwrite_output_dir := false
|}.

(** A run that gives an explicit token and a private repository, and allows
    the output directory to be overwritten. *)
Definition args_retry : Args := {|
  local_rank := 0;
  hub_token := Some "hf_explicit"%string;
  hub_model_id := Some "acme/ddpm"%string;
  hub_private_repo := true;
  hub_strategy := "end";
  output_dir := "out/ddpm";
  overwrite_output_dir := true
|}.

(** A run that keeps every checkpoint. *)
Definition args_keep_all : Args := {|
  local_rank := -1;
  hub_token := None;
  hub_model_id := None;
  hub_private_repo := false;
  hub_strategy := "all_checkpoints";
  output_dir := "out/ddpm";
  overwrite_output_dir := false
|}.

Definition not_a_git_repo : exn :=
  mk_exn EnvironmentError
    "Tried to clone a repository in a non-empty folder that isn't a git repository.".

Definition hub_unreachable : exn :=
  mk_exn EnvironmentError "Connection to the hub failed.".

(** The output directory holds files that are no clone: the first bind
    raises, a second one would succeed. *)
Definition sim_conflict : Sim :=
  sim_set_binds [Raised not_a_git_repo]
    (sim_set_files {[ "out/ddpm/old.bin"%string := "old"%string ]} sim0).

(** The same output directory with a [.gitignore] of its own. *)
Definition sim_conflict_gitignore : Sim :=
  sim_set_files
    (<[ "out/ddpm/.gitignore"%string := "*.bin"%string ]>
       {[ "out/ddpm/old.bin"%string := "old"%string ]})
    sim_conflict.

(** The same, and the hub cannot be reached when the bind is made again. *)
Definition sim_conflict_twice : Sim :=
  sim_set_binds [Raised not_a_git_repo; Raised hub_unreachable] sim_conflict.

(** What [push_to_hub] does before it looks at the rank: the directory, the
    log line, the pipeline. *)
Definition saving (args : Args) (pipeline : DiffusionPipeline)
    (r : result unit) : list event :=
  [Ev (os_makedirs (output_dir args) true) (Ok tt);
   Ev (logger_info ("Saving pipeline checkpoint to " +:+ output_dir args)) tt;
   Ev (save_pretrained pipeline (output_dir args)) r].

(** The [logger.error] line of a failed model-card push. *)
Definition model_card_push_error (exc : exn) : string :=
  "Error pushing update to the model card. Please read logs and retry."
  +:+ nl +:+ "$" +:+ exn_str exc.

(** What [get_full_repo_name] makes of the reply of the identity lookup. *)
Definition username_of (model_id : string)
    (reply : result (gmap string string)) : result string :=
  match reply with
  | Ok identity =>
      match identity !! "name"%string with
      | Some username => Ok (username +:+ "/" +:+ model_id)
      | None => Raised (mk_exn KeyError "name")
      end
  | Raised e => Raised e
  end.

(** The two [Repository(...)] calls of [init_git_repo] as the source writes
    them: the first passes [private], the one after the wipe does not. *)
Definition first_bind (args : Args) (repo_name : string)
    (reply : result Repository) : bind_attempt :=
  {| bind_local_dir := output_dir args;
     bind_clone_from := repo_name;
     bind_use_auth_token := use_auth_token_of args;
     bind_private := Some (hub_private_repo args);
     bind_reply := reply |}.

Definition retry_bind (args : Args) (repo_name : string)
    (reply : result Repository) : bind_attempt :=
  {| bind_local_dir := output_dir args;
     bind_clone_from := repo_name;
     bind_use_auth_token := use_auth_token_of args;
     bind_private := None;
     bind_reply := reply |}.

(** ** Further readings of a trace *)

Definition as_pull (e : event) : option (Repository * result unit) :=
  match e with
  | Ev c r =>
      match c in call R return R → option (Repository * result unit) with
      | git_pull repo => fun r => Some (repo, r)
      | _ => fun _ => None
      end r
  end.

(** The [repo.git_pull()] calls of a trace. *)
Definition pulls (tr : list event) : list (Repository * result unit) :=
  omap as_pull tr.

(** The arguments of a push, without its reply. *)
Definition push_arguments (p : push_attempt)
  : Repository * option string * bool * bool :=
  (push_repo p, push_commit_message p, push_blocking p, push_auto_lfs_prune p).


(** [model_name] as [push_to_hub] computes it (lines 102-105). *)
Definition push_model_name (args : Args) : string :=
  match hub_model_id args with
  | None => Path_name (output_dir args)
  | Some id => last_field (str_split slash id)
  end.

(** The simulated environment on a file system that cannot be written. *)
Definition read_only : exn := mk_exn EnvironmentError "Read-only file system".

Definition sim_read_only_handler : handler Sim := fun R c =>
  match c in call R return Sim → R * Sim with
  | open_w_write _ _ _ => fun s => (Raised read_only, s)
  | c' => sim_handler _ c'
  end.

(** An exception of another class than [EnvironmentError]. *)
Definition bad_request : exn := mk_exn Exception "400 Bad Request".

(** The command queue after one [push_to_hub] without [blocking] whose two
    pushes have both finished. *)
Definition sim_finished : Sim :=
  sim_set_commands [Some 0%nat; Some 1%nat] [] [] sim0.

(** The identity lookup is refused. *)
Definition unauthorized : exn := mk_exn Exception "401 Unauthorized".

Definition sim_logged_out : Sim :=
  {| sim_files := ∅;
     sim_stored_token := None;
     sim_identity := Raised unauthorized;
     sim_cwd := "/home/alice";
     sim_binds := [];
     sim_pushes := [];
     sim_queue := [];
     sim_running := [];
     sim_killed := [] |}.

(** Two pushes in progress in the queue. *)
Definition sim_two_running : Sim :=
  sim_set_commands [Some 0%nat; Some 1%nat] [0%nat; 1%nat] [] sim0.

(** The output directory is the working directory. *)
Definition args_here : Args := {|
  local_rank := -1;
  hub_token := None;
  hub_model_id := None;
  hub_private_repo := false;
  hub_strategy := "end";
  output_dir := ".";
  overwrite_output_dir := false
|}.


(** * Properties *)

(** ** Laws of running *)

Lemma run_bind {S A B : Type} (h : handler S) (p : prog A) (f : A → prog B)
    (s : S) :
  run h (bind p f) s =
  match run h p s with
  | (Ok a, s1, tr1) =>
      let '(o, s2, tr2) := run h (f a) s1 in (o, s2, tr1 ++ tr2)
  | (Raised e, s1, tr1) => (Raised e, s1, tr1)
  end.
Proof.
  revert s. induction p as [a | e | R c k IH]; intros s; cbn.
  - destruct (run h (f a) s) as [[o s2] tr2]. reflexivity.
  - reflexivity.
  - destruct (h R c s) as [r s1]. rewrite IH.
    destruct (run h (k r) s1) as [[[a | e] s2] tr1]; [| reflexivity].
    destruct (run h (f a) s2) as [[o s3] tr2]. reflexivity.
Qed.

Lemma run_try_except {S A : Type} (h : handler S) (p : prog A)
    (g : exn → prog A) (s : S) :
  run h (try_except p g) s =
  match run h p s with
  | (Ok a, s1, tr1) => (Ok a, s1, tr1)
  | (Raised e, s1, tr1) =>
      let '(o, s2, tr2) := run h (g e) s1 in (o, s2, tr1 ++ tr2)
  end.
Proof.
  revert s. induction p as [a | e | R c k IH]; intros s; cbn.
  - reflexivity.
  - destruct (run h (g e) s) as [[o s2] tr2]. reflexivity.
  - destruct (h R c s) as [r s1]. rewrite IH.
    destruct (run h (k r) s1) as [[[a | e] s2] tr1]; [reflexivity |].
    destruct (run h (g e) s2) as [[o s3] tr2]. reflexivity.
Qed.

(** A program that [try_except] guards never escapes with an exception that
    the handler turns into a value. *)
Lemma run_try_except_total {S A : Type} (h : handler S) (p : prog A)
    (g : exn → A) (s : S) :
  ∃ a, outcome (run h (try_except p (fun e => Ret (g e))) s) = Ok a.
Proof.
  rewrite run_try_except.
  destruct (run h p s) as [[[a | e] s1] tr1]; cbn; eauto.
Qed.

(** ** Names and their segments *)

Lemma str_split_nonempty (c : ascii) (s : string) : str_split c s ≠ [].
Proof.
  destruct s as [| x s]; simpl; [done |].
  destruct (Ascii.eqb x c); [done |]. by destruct (str_split c s).
Qed.

(** Splitting at a separator that is written out splits the two sides. *)
Lemma str_split_app (c : ascii) (a b : string) :
  str_split c (a +:+ String c b) = str_split c a ++ str_split c b.
Proof.
  induction a as [| x a IH]; simpl.
  - by rewrite Ascii.eqb_refl.
  - destruct (Ascii.eqb x c); [by rewrite IH |].
    rewrite IH. pose proof (str_split_nonempty c a).
    by destruct (str_split c a).
Qed.

Lemma str_split_no_sep (c : ascii) (s : string) :
  contains_char c s = false → str_split c s = [s].
Proof.
  induction s as [| x s IH]; simpl; [done |].
  destruct (Ascii.eqb x c); [done |]. intros H. by rewrite (IH H).
Qed.

(** No field of a split holds the separator. *)
Lemma str_split_fields (c : ascii) (s : string) :
  Forall (fun w => contains_char c w = false) (str_split c s).
Proof.
  induction s as [| x s IH]; simpl; [by repeat constructor |].
  destruct (Ascii.eqb x c) eqn:Hx; [by constructor |].
  destruct (str_split c s) as [| w ws].
  - repeat constructor. simpl. by rewrite Hx.
  - apply Forall_cons in IH as [Hw Hws]. constructor; [| done].
    simpl. by rewrite Hx.
Qed.

Lemma contains_char_app (c : ascii) (a b : string) :
  contains_char c (a +:+ String c b) = true.
Proof.
  induction a as [| x a IH]; simpl;
    [by rewrite Ascii.eqb_refl |].
  by destruct (Ascii.eqb x c).
Qed.

Lemma List_last_Forall {A : Type} (P : A → Prop) (l : list A) (d : A) :
  P d → Forall P l → P (List.last l d).
Proof.
  intros Hd Hl. induction Hl as [| x l Hx Hl IH]; [done |].
  cbn. destruct l; [done | exact IH].
Qed.

Lemma List_last_app {A : Type} (l1 l2 : list A) (d : A) :
  l2 ≠ [] → List.last (l1 ++ l2) d = List.last l2 d.
Proof.
  intros Hl2. induction l1 as [| x l1 IH]; [done |].
  cbn. destruct (l1 ++ l2) eqn:Happ; [| done].
  by apply app_eq_nil in Happ as [_ ?].
Qed.


(** [Path(p).name] holds no slash. *)
Lemma Path_name_no_slash (p : string) :
  contains_char slash (Path_name p) = false.
Proof.
  unfold Path_name, last_field.
  apply (List_last_Forall (fun w => contains_char slash w = false)); [done |].
  constructor; [done |]. apply Forall_forall. intros w [_ Hw]%list_elem_of_filter.
  revert w Hw. apply Forall_forall, str_split_fields.
Qed.

(** The last segment of [owner/name] is the last segment of [name]. *)
Lemma last_segment_qualified (owner name : string) :
  last_field (str_split slash (owner +:+ "/" +:+ name))
  = last_field (str_split slash name).
Proof.
  change (owner +:+ "/" +:+ name) with (owner +:+ String slash name).
  rewrite str_split_app. unfold last_field.
  apply List_last_app, str_split_nonempty.
Qed.

Lemma last_segment_plain (name : string) :
  contains_char slash name = false →
  last_field (str_split slash name) = name.
Proof. intros H. by rewrite (str_split_no_sep _ _ H). Qed.

(** A path with a final component keeps its name when it is made absolute:
    [Path(cwd / p).name = Path(p).name]. *)
Lemma Path_name_absolute (cwd p : string) :
  Path_name p ≠ EmptyString →
  Path_name (cwd +:+ "/" +:+ p) = Path_name p.
Proof.
  unfold Path_name, last_field.
  change (cwd +:+ "/" +:+ p) with (cwd +:+ String slash p).
  rewrite str_split_app, filter_app. intros Hname.
  set (f := filter _ (str_split slash p)) in *.
  destruct f as [| w ws] eqn:Hf; [done |].
  rewrite app_comm_cons, (List_last_app _ (w :: ws)) by done.
  symmetry. by apply (List_last_app [EmptyString] (w :: ws)).
Qed.

(** ** Case analysis on the replies of the handler *)

#[local] Arguments Path_name : simpl never.
#[local] Arguments contains_char : simpl never.
#[local] Arguments is_absolute : simpl never.
#[local] Arguments os_path_join : simpl never.
#[local] Arguments last_field : simpl never.
#[local] Arguments str_split : simpl never.
#[local] Arguments String.append : simpl never.
#[local] Arguments String.eqb : simpl never.
#[local] Arguments model_card_text : simpl never.

(** One step: split on the next reply of the handler [h], or on the next
    test that the program makes. *)
Ltac step h :=
  match goal with
  | |- context [h ?R ?c ?s] => destruct (h R c s) as [? ?] eqn:?
  | |- context [negb ?b] => is_var b; destruct b
  | |- context [match ?x with _ => _ end] =>
      lazymatch x with
      | context [run] => fail
      | _ => destruct x eqn:?
      end
  end.

Ltac steps h := repeat (cbn; step h); cbn.

Ltac destruct_units :=
  repeat match goal with u : unit |- _ => destruct u end.

Ltac list_mem :=
  repeat match goal with
    | H : _ ∈ [] |- _ => by apply elem_of_nil in H
    | H : _ ∈ _ :: _ |- _ => apply elem_of_cons in H as [H | H]
    end;
  simplify_eq.

Ltac use_equations :=
  repeat match goal with H : ?x = _ |- context [?x] => rewrite H end.

(** ** Traces of lookups *)

Lemma omap_lookups {A : Type} (f : event → option A) (tr1 tr2 : list event) :
  (∀ e, is_lookup e = true → f e = None) →
  forallb is_lookup tr1 = true →
  omap f (tr1 ++ tr2) = omap f tr2.
Proof.
  intros Hf. induction tr1 as [| e tr1 IH]; cbn; [done |].
  intros [He Htr]%andb_prop. rewrite (Hf e He). auto.
Qed.

Ltac lookup_is_none :=
  intros [R c r]; destruct c; cbn; done.

Lemma binds_lookups tr1 tr2 :
  forallb is_lookup tr1 = true → binds (tr1 ++ tr2) = binds tr2.
Proof. apply omap_lookups. lookup_is_none. Qed.

Lemma rmtrees_lookups tr1 tr2 :
  forallb is_lookup tr1 = true → rmtrees (tr1 ++ tr2) = rmtrees tr2.
Proof. apply omap_lookups. lookup_is_none. Qed.

Lemma writes_lookups tr1 tr2 :
  forallb is_lookup tr1 = true → writes (tr1 ++ tr2) = writes tr2.
Proof. apply omap_lookups. lookup_is_none. Qed.

Lemma exists_tests_lookups tr1 tr2 :
  forallb is_lookup tr1 = true → exists_tests (tr1 ++ tr2) = exists_tests tr2.
Proof. apply omap_lookups. lookup_is_none. Qed.

Lemma mutations_lookups tr1 tr2 :
  forallb is_lookup tr1 = true → mutations (tr1 ++ tr2) = mutations tr2.
Proof.
  unfold mutations. induction tr1 as [| [R c r] tr1 IH]; cbn; [done |].
  intros [He Htr]%andb_prop. destruct c; cbn in *; try done; auto.
Qed.

Ltac drop_lookups H :=
  rewrite ?(binds_lookups _ _ H), ?(rmtrees_lookups _ _ H),
    ?(writes_lookups _ _ H), ?(exists_tests_lookups _ _ H),
    ?(mutations_lookups _ _ H).

Section AnyHandler.

Context {S : Type} (h : handler S).

(** C8. [get_full_repo_name] returns exactly [organization/model_id] when an
    organization is given, and then makes no identity lookup; without an
    organization it makes one identity lookup, with the given token or, when
    there is none, with the locally stored one, and returns
    [username/model_id] where [username] is the [name] field of the reply
    (the lookup's exception, or the [KeyError], propagates otherwise). *)
Theorem get_full_repo_name_spec (s : S) (model_id : string)
    (organization token : option string) :
  let x := run h (get_full_repo_name model_id organization token) s in
  match organization with
  | Some org =>
      outcome x = Ok (org +:+ "/" +:+ model_id) ∧ whoamis (trace x) = []
  | None =>
      let tok := match token with
                 | Some t => Some t
                 | None => (h _ HfFolder_get_token s).1
                 end in
      ∃ reply, whoamis (trace x) = [(tok, reply)]
               ∧ outcome x = username_of model_id reply
  end.
Proof.
  unfold get_full_repo_name, dict_get, ask, invoke, outcome, trace, username_of.
  destruct organization, token; steps h; eauto.
  all: eexists; (split; [reflexivity |]); cbn; use_equations; done.
Qed.

(** *** [init_git_repo], block by block *)

Lemma run_bind_assoc {A B C : Type} (p : prog A) (f : A → prog B)
    (g : B → prog C) (s : S) :
  run h (bind (bind p f) g) s = run h (bind p (fun a => bind (f a) g)) s.
Proof.
  revert s. induction p as [a | e | R c k IH]; intros s; cbn; try done.
  destruct (h R c s) as [r s1]. by rewrite IH.
Qed.

Lemma init_git_repo_run (s : S) (args : Args) (at_init : bool) :
  is_primary args = true →
  run h (init_git_repo args at_init) s =
  run h (repo_name <- init_repo_name args ;;
         init_from_bind args at_init repo_name) s.
Proof.
  intros Hp. unfold init_git_repo, init_repo_name, init_from_bind.
  rewrite Hp. cbn [negb]. symmetry. apply run_bind_assoc.
Qed.

Lemma init_repo_name_lookups (s : S) (args : Args) :
  forallb is_lookup (trace (run h (init_repo_name args) s)) = true.
Proof.
  unfold init_repo_name, get_full_repo_name, Path_absolute, dict_get, ask,
    invoke, trace.
  steps h; done.
Qed.

(** A run of [init_git_repo] is either over before the first bind, with
    nothing but lookups made, or a run of the second block after lookups. *)
Lemma init_git_repo_split (s : S) (args : Args) (at_init : bool) :
  ∃ tr1, forallb is_lookup tr1 = true ∧
    ((trace (run h (init_git_repo args at_init) s) = tr1
      ∧ ∀ repo, outcome (run h (init_git_repo args at_init) s) ≠ Ok (Some repo))
     ∨ ∃ repo_name s1,
         is_primary args = true ∧
         let t := run h (init_from_bind args at_init repo_name) s1 in
         run h (init_git_repo args at_init) s
         = (outcome t, final t, tr1 ++ trace t)).
Proof.
  destruct (is_primary args) eqn:Hp.
  - rewrite (init_git_repo_run _ _ _ Hp), run_bind.
    pose proof (init_repo_name_lookups s args) as Hlk.
    destruct (run h (init_repo_name args) s) as [[[name | e] s1] tr1];
      cbn in Hlk; exists tr1; (split; [done |]).
    + right. exists name, s1. split; [done |].
      by destruct (run h (init_from_bind args at_init name) s1) as [[o s2] tr2].
    + left. done.
  - exists []. split; [done |]. left.
    unfold init_git_repo. rewrite Hp. done.
Qed.

(** Start an argument on a run of [init_git_repo]: the case without a bind
    is left with a trace of lookups, the other case with the run of the
    second block unfolded and split by [steps]. *)
Ltac on_init_git_repo s args at_init :=
  let tr1 := fresh "tr1" in
  let Hlk := fresh "Hlk" in
  let Htr := fresh "Htr" in
  let Hout := fresh "Hout" in
  let Hx := fresh "Hx" in
  let Hp := fresh "Hp" in
  destruct (init_git_repo_split s args at_init)
    as (tr1 & Hlk & [[Htr Hout] | (? & ? & Hp & Hx)]);
  [ rewrite Htr;
    pose proof (binds_lookups tr1 [] Hlk);
    pose proof (rmtrees_lookups tr1 [] Hlk);
    pose proof (writes_lookups tr1 [] Hlk);
    pose proof (exists_tests_lookups tr1 [] Hlk);
    pose proof (mutations_lookups tr1 [] Hlk);
    rewrite app_nil_r in *; cbn in *
  | rewrite Hx; cbn [outcome trace final fst snd]; clear Hx;
    drop_lookups Hlk;
    unfold init_from_bind, ask, invoke, trace, outcome, final ].

(** C10. In every run of [init_git_repo] the [private] arguments of the
    [Repository(...)] calls are, in order, a prefix of: the configured
    visibility flag, then no argument at all.  So the flag is passed on the
    first bind only; a second bind happens only after the output directory
    was removed, and it never carries the flag. *)
Theorem retry_bind_omits_private (s : S) (args : Args) (at_init : bool) :
  let tr := trace (run h (init_git_repo args at_init) s) in
  map bind_private (binds tr) `prefix_of` [Some (hub_private_repo args); None]
  ∧ ∀ b1 b2 rest, binds tr = b1 :: b2 :: rest →
      bind_private b1 = Some (hub_private_repo args)
      ∧ bind_private b2 = None ∧ rest = []
      ∧ rmtrees tr = [(output_dir args, Ok tt)].
Proof.
  cbn zeta. on_init_git_repo s args at_init.
  - split; [| congruence].
    replace (binds tr1) with (@nil bind_attempt) by done. apply prefix_nil.
  - split.
    + steps h; solve [by eexists | apply prefix_nil].
    + intros b1 b2 rest. steps h; intros; simplify_eq; cbn; try done.
      all: destruct_units; done.
Qed.

(** C1, as the code has it.  Whenever [init_git_repo] makes a second
    [Repository(...)] call (the retry after the wipe), that call carries the
    same credential as the first one, the one computed from
    [args.hub_token]: the explicit token when one was supplied, and the
    cached-credential value only when none was. *)
Theorem retry_bind_keeps_credential (s : S) (args : Args) (at_init : bool)
    (b1 b2 : bind_attempt) (rest : list bind_attempt) :
  binds (trace (run h (init_git_repo args at_init) s)) = b1 :: b2 :: rest →
  bind_use_auth_token b2 = use_auth_token_of args
  ∧ bind_use_auth_token b2 = bind_use_auth_token b1
  ∧ (bind_use_auth_token b2 = AuthCached ↔ hub_token args = None)
  ∧ (∃ e, bind_reply b1 = Raised e ∧ is_EnvironmentError e = true)
  ∧ overwrite_output_dir args && at_init = true.
Proof.
  on_init_git_repo s args at_init; [congruence |].
  steps h; intros; simplify_eq; cbn.
  all: (split; [done |]); (split; [done |]).
  all: (split;
        [unfold use_auth_token_of; destruct (hub_token args); naive_solver |]).
  all: split; [eauto | done].
Qed.

(** C5, as the code has it.  When the first [Repository(...)] call raises an
    [EnvironmentError]: if [args.overwrite_output_dir and at_init] holds, the
    output directory is removed with [shutil.rmtree] right after the failed
    bind, and once it is removed the bind is made again, exactly once, right
    after the removal; an exception of the removal or of the second bind is
    the one that propagates, and nothing is tried after it.  If the condition
    does not hold there is no removal and no second bind, and the original
    exception propagates. *)
Theorem bind_failure_policy (s : S) (args : Args) (at_init : bool)
    (b1 : bind_attempt) (rest : list bind_attempt) (e : exn) :
  let x := run h (init_git_repo args at_init) s in
  binds (trace x) = b1 :: rest →
  bind_reply b1 = Raised e →
  is_EnvironmentError e = true →
  if overwrite_output_dir args && at_init then
    ∃ r_rm, rmtrees (trace x) = [(output_dir args, r_rm)] ∧
      match r_rm with
      | Ok _ =>
          ∃ r2 post,
            mutations (trace x) =
              Ev (Repository_init (output_dir args) (bind_clone_from b1)
                    (use_auth_token_of args) (Some (hub_private_repo args)))
                 (Raised e)
              :: Ev (shutil_rmtree (output_dir args)) (Ok tt)
              :: Ev (Repository_init (output_dir args) (bind_clone_from b1)
                       (use_auth_token_of args) None) r2
              :: post
            ∧ rest = [retry_bind args (bind_clone_from b1) r2]
            ∧ (∀ e2, r2 = Raised e2 → outcome x = Raised e2 ∧ post = [])
      | Raised e' =>
          rest = [] ∧ outcome x = Raised e'
          ∧ mutations (trace x) =
              [Ev (Repository_init (output_dir args) (bind_clone_from b1)
                     (use_auth_token_of args) (Some (hub_private_repo args)))
                  (Raised e);
               Ev (shutil_rmtree (output_dir args)) (Raised e')]
      end
  else rest = [] ∧ rmtrees (trace x) = [] ∧ outcome x = Raised e.
Proof.
  cbn zeta. on_init_git_repo s args at_init; [congruence |].
  unfold mutations.
  destruct (overwrite_output_dir args && at_init) eqn:Hretry.
  all: steps h; intros; simplify_eq; cbn in *; simplify_eq; try done.
  all: try congruence.
  all: destruct_units; eexists; (split; [reflexivity |]); cbn.
  all: try (split; [done |]; split; done).
  all: eexists _, _; (split; [reflexivity |]); split; [done |].
  all: intros; simplify_eq; done.
Qed.

(** C7, as the code has it.  [init_git_repo] looks for [.gitignore] once,
    at the end: after the bind, after the removal of the output directory
    and the second bind when there are any, and after the pull.  A run that
    returns a repository has made that test, and what follows depends on
    its answer alone: when the answer is no and the retention strategy is
    not [all_checkpoints], [.gitignore] is opened for writing as UTF-8 and
    gets exactly the text [checkpoint-*/] (no newline after it), and that
    write is the last thing the run does; otherwise the test is the last
    thing it does.  In every run, returning or not: the only file ever
    written is that [.gitignore] with that text; nothing is written with
    the strategy [all_checkpoints]; nothing is written once the test has
    answered yes. *)
Theorem gitignore_seeding (s : S) (args : Args) (at_init : bool) :
  let x := run h (init_git_repo args at_init) s in
  let gitignore :=
    (gitignore_path args, Some "utf-8"%string, "checkpoint-*/"%string) in
  (∀ w, w ∈ writes (trace x) → w.1 = gitignore)
  ∧ (∀ p b, (p, b) ∈ exists_tests (trace x) → p = gitignore_path args)
  ∧ (hub_strategy args = "all_checkpoints"%string → writes (trace x) = [])
  ∧ ((gitignore_path args, true) ∈ exists_tests (trace x) →
       writes (trace x) = []
       ∧ last (trace x) = Some (Ev (os_path_exists (gitignore_path args)) true))
  ∧ ((gitignore_path args, false) ∈ exists_tests (trace x) →
       hub_strategy args ≠ "all_checkpoints"%string →
       ∃ r, writes (trace x) = [(gitignore, r)]
            ∧ last (trace x)
              = Some (Ev (open_w_write (gitignore_path args)
                            (Some "utf-8"%string) "checkpoint-*/") r)
            ∧ (∀ repo, outcome x = Ok repo → r = Ok tt))
  ∧ (∀ repo, outcome x = Ok (Some repo) →
       ∃ present,
         exists_tests (trace x) = [(gitignore_path args, present)]
         ∧ if negb present
              && negb (String.eqb (hub_strategy args) "all_checkpoints")
           then
             writes (trace x) = [(gitignore, Ok tt)]
             ∧ [Ev (os_path_exists (gitignore_path args)) present;
                Ev (open_w_write (gitignore_path args) (Some "utf-8"%string)
                      "checkpoint-*/") (Ok tt)]
               `suffix_of` trace x
           else
             writes (trace x) = []
             ∧ [Ev (os_path_exists (gitignore_path args)) present]
               `suffix_of` trace x).
Proof.
  cbn zeta. on_init_git_repo s args at_init.
  - repeat match goal with H : _ = [] |- _ => rewrite H; clear H end.
    repeat split; intros; list_mem; try done.
    exfalso. eapply Hout. eassumption.
  - destruct (String.eqb_spec (hub_strategy args) "all_checkpoints")
      as [Hs | Hs].
    all: steps h; destruct_units.
    all: repeat split; intros; list_mem; try done; try congruence.
    all: try (rewrite last_app; cbn; done).
    all: eexists; (split; [reflexivity |]); cbn.
    all: try (split; [rewrite last_app; cbn; done |];
              intros; simplify_eq; done).
    all: split; [reflexivity |].
    all: apply suffix_app_r; repeat first [reflexivity | apply suffix_cons_r].
Qed.

(** The pieces of the model card, for every model name. *)
Lemma model_card_text_parts (model_name : string) :
  model_card_text model_name =
    ("---" +:+ nl +:+ "license: apache-2.0" +:+ nl +:+ "tags:" +:+ nl
     +:+ "- pytorch" +:+ nl +:+ "- diffusers" +:+ nl +:+ "---" +:+ nl)
    +:+ AUTOGENERATED_TRAINER_COMMENT
    +:+ nl +:+ "# " +:+ model_name +:+ nl +:+ nl.
Proof. reflexivity. Qed.

(** C6. On the primary participant [create_model_card] does one thing: it
    opens [README.md] in the output directory for writing and writes the
    model card; it tests and reads nothing before, so a file that is there
    is replaced whatever it held.  The card starts with [---] and a newline,
    has the line [license: apache-2.0], holds the disclaimer verbatim, and
    ends with [# model_name] and two newlines. *)
Theorem create_model_card_writes_readme (s : S) (args : Args)
    (model_name : string) :
  is_primary args = true →
  let x := run h (create_model_card args model_name) s in
  let card := model_card_text model_name in
  (∃ r, trace x = [Ev (open_w_write (readme_path args) None card) r]
        ∧ outcome x = match r with Ok _ => Ok tt | Raised e => Raised e end)
  ∧ (∀ sim, sim_files (final (run sim_handler
                                 (create_model_card args model_name) sim))
            = <[readme_path args := card]> (sim_files sim))
  ∧ (∃ rest, card = "---" +:+ nl +:+ rest)
  ∧ (∃ pre post, card = pre +:+ nl +:+ "license: apache-2.0" +:+ nl +:+ post)
  ∧ (∃ pre post, card = pre +:+ AUTOGENERATED_TRAINER_COMMENT +:+ post)
  ∧ (∃ pre, card = pre +:+ "# " +:+ model_name +:+ nl +:+ nl).
Proof.
  intros Hprimary. unfold create_model_card, invoke, trace, outcome, final.
  rewrite Hprimary. cbn. repeat split.
  - destruct (h _ (open_w_write (readme_path args) None
                     (model_card_text model_name)) s) as [[u | e] s1];
      eexists; split; try reflexivity. by destruct u.
  - eexists. apply model_card_text_parts.
  - exists "---"%string. eexists. apply model_card_text_parts.
  - exists ("---" +:+ nl +:+ "license: apache-2.0" +:+ nl +:+ "tags:" +:+ nl
            +:+ "- pytorch" +:+ nl +:+ "- diffusers" +:+ nl +:+ "---" +:+ nl).
    eexists. apply model_card_text_parts.
  - exists (("---" +:+ nl +:+ "license: apache-2.0" +:+ nl +:+ "tags:" +:+ nl
             +:+ "- pytorch" +:+ nl +:+ "- diffusers" +:+ nl +:+ "---" +:+ nl)
            +:+ AUTOGENERATED_TRAINER_COMMENT +:+ nl).
    reflexivity.
Qed.

(** *** [push_to_hub] *)

Lemma push_to_hub_non_primary (s : S) (args : Args)
    (pipeline : DiffusionPipeline) (repo : Repository)
    (commit_message : option string) (blocking : bool) :
  is_primary args = false →
  let x := run h (push_to_hub args pipeline repo commit_message blocking) s in
  (∃ e, trace x = [Ev (os_makedirs (output_dir args) true) (Raised e)]
        ∧ outcome x = Raised e)
  ∨ (∃ r, trace x = saving args pipeline r
          ∧ outcome x = match r with
                        | Ok _ => Ok None
                        | Raised e => Raised e
                        end).
Proof.
  intros Hp. unfold push_to_hub, ask, invoke, trace, outcome, saving.
  rewrite Hp. steps h; destruct_units; eauto.
Qed.

(** C2, as the code has it.  On a participant whose rank is neither -1 nor
    0, [init_git_repo] and [create_model_card] return at once: no
    interaction at all, the environment as it was.  [push_to_hub] does not:
    it creates the output directory and saves the pipeline there, and only
    then returns [None]; a push, a kill or a write of the model card it
    never makes. *)
Theorem non_primary_only_saves (s : S) (args : Args) :
  is_primary args = false →
  (∀ at_init, run h (init_git_repo args at_init) s = (Ok None, s, []))
  ∧ (∀ model_name,
       run h (create_model_card args model_name) s = (Ok tt, s, []))
  ∧ (∀ pipeline repo commit_message blocking,
       let x :=
         run h (push_to_hub args pipeline repo commit_message blocking) s in
       (∃ e, trace x = [Ev (os_makedirs (output_dir args) true) (Raised e)]
             ∧ outcome x = Raised e)
       ∨ (∃ r, trace x = saving args pipeline r
               ∧ outcome x = match r with
                             | Ok _ => Ok None
                             | Raised e => Raised e
                             end)).
Proof.
  intros Hp. split; [| split].
  - intros at_init. unfold init_git_repo. by rewrite Hp.
  - intros model_name. unfold create_model_card. by rewrite Hp.
  - intros. by apply push_to_hub_non_primary.
Qed.

(** C3. [push_to_hub] tests the rank after it has saved the pipeline.  On
    every participant a run starts with [os.makedirs] on the output
    directory and, unless that raises, goes on with the log line and with
    [pipeline.save_pretrained] on the output directory.  On a participant
    whose rank is neither -1 nor 0 nothing follows: no look at the command
    queue, no kill, no push, no model card, and the result is [None]. *)
Theorem push_to_hub_saves_before_gate (s : S) (args : Args)
    (pipeline : DiffusionPipeline) (repo : Repository)
    (commit_message : option string) (blocking : bool) :
  let x := run h (push_to_hub args pipeline repo commit_message blocking) s in
  (∃ e, trace x = [Ev (os_makedirs (output_dir args) true) (Raised e)]
        ∧ outcome x = Raised e)
  ∨ (∃ r rest,
       trace x = saving args pipeline r ++ rest
       ∧ (∀ e, r = Raised e → rest = [] ∧ outcome x = Raised e)
       ∧ (is_primary args = false →
            rest = []
            ∧ queue_reads (trace x) = [] ∧ done_queries (trace x) = []
            ∧ kills (trace x) = [] ∧ pushes (trace x) = []
            ∧ writes (trace x) = []
            ∧ ∀ u, r = Ok u → outcome x = Ok None)).
Proof.
  cbn zeta. destruct (is_primary args) eqn:Hp.
  - unfold push_to_hub, create_model_card, index_last, attr_of, ask, invoke,
      trace, outcome, saving.
    rewrite Hp. steps h; destruct_units.
    all: first [ left; eexists; split; reflexivity
               | right; eexists _, _; split; [reflexivity |];
                 split; [intros; simplify_eq; done | done] ].
  - destruct (push_to_hub_non_primary s args pipeline repo commit_message
                blocking Hp) as [(e & Htr & Hout) | (r & Htr & Hout)].
    + left. eauto.
    + right. exists r, []. rewrite app_nil_r, Htr, Hout.
      split; [done |]. split; [by intros e -> |]. intros _.
      repeat split; try done. by intros u ->.
Qed.

(** C4. In every run of [push_to_hub]: if its first push, the one of the
    checkpoint with the caller's commit message, raises, the run ends
    there with that very exception; no model card is written and no
    second push is made.  If the first push succeeds and the second one,
    the push of the model card, raises an [EnvironmentError], the run ends
    with the [logger.error] line for that exception and returns the result
    of the first push. *)
Theorem push_failure_policy (s : S) (args : Args)
    (pipeline : DiffusionPipeline) (repo : Repository)
    (commit_message : option string) (blocking : bool) :
  let x := run h (push_to_hub args pipeline repo commit_message blocking) s in
  (∀ p1 rest e,
     pushes (trace x) = p1 :: rest → push_reply p1 = Raised e →
     rest = [] ∧ writes (trace x) = [] ∧ outcome x = Raised e
     ∧ push_commit_message p1 = commit_message
     ∧ last (trace x)
       = Some (Ev (repo_push_to_hub repo commit_message blocking true)
                  (Raised e)))
  ∧ (∀ p1 p2 rest url e,
       pushes (trace x) = p1 :: p2 :: rest →
       push_reply p1 = Ok url → push_reply p2 = Raised e →
       is_EnvironmentError e = true →
       rest = [] ∧ outcome x = Ok (Some url)
       ∧ push_commit_message p2 = Some "update model card README.md"%string
       ∧ last (trace x)
         = Some (Ev (logger_error (model_card_push_error e)) tt)).
Proof.
  cbn zeta.
  unfold push_to_hub, create_model_card, index_last, attr_of, ask, invoke,
    trace, outcome, model_card_push_error.
  split.
  - intros p1 rest e. steps h; intros; simplify_eq; cbn in *; simplify_eq.
    all: done.
  - intros p1 p2 rest url e.
    steps h; intros; simplify_eq; cbn in *; simplify_eq.
    all: try congruence.
    all: destruct_units; done.
Qed.

(** What the code does about a push in progress.  Without [blocking] it
    neither reads the command queue nor asks or kills anything.  It kills
    at most one command, before its first push, and that command is the
    last entry of the queue as last read.  And when the queue reads all
    give the same queue and [is_done] answers no, the command asked is the
    last entry of the queue and it is killed before the first push.  No
    entry before the last one is ever asked or killed. *)
Theorem blocking_push_cancels_last_command (s : S) (args : Args)
    (pipeline : DiffusionPipeline) (repo : Repository)
    (commit_message : option string) (blocking : bool) :
  let tr :=
    trace (run h (push_to_hub args pipeline repo commit_message blocking) s) in
  (blocking = false →
     queue_reads tr = [] ∧ done_queries tr = [] ∧ kills tr = [])
  ∧ (∀ c r, (c, r) ∈ kills tr →
       blocking = true ∧ is_primary args = true
       ∧ kills tr = [(c, r)] ∧ kills (before_first_push tr) = [(c, r)]
       ∧ (∃ c', done_queries tr = [(c', Ok false)])
       ∧ ∃ q, last (queue_reads tr) = Some q ∧ last q = Some (Some c))
  ∧ (∀ c q, done_queries tr = [(c, Ok false)] →
       Forall (fun q' => q' = q) (queue_reads tr) →
       last q = Some (Some c) ∧ ∃ r, kills (before_first_push tr) = [(c, r)])
  ∧ (∀ c r q, (c, r) ∈ done_queries tr → q ∈ queue_reads tr →
       Forall (fun q' => q' = q) (queue_reads tr) → last q = Some (Some c)).
Proof.
  cbn zeta.
  unfold push_to_hub, create_model_card, index_last, attr_of, ask, invoke,
    trace.
  destruct blocking, (is_primary args) eqn:Hp.
  all: steps h.
  all: (split; [done |]).
  all: (split; [intros; list_mem; try done; repeat split; eauto |]).
  all: split; intros; list_mem; simplify_eq;
         repeat match goal with
           | H : Forall _ (_ :: _) |- _ => apply Forall_cons in H as [? H]
           end; simplify_eq; try done; eauto.
Qed.

(** *** More on [init_git_repo] *)

Lemma pulls_lookups tr1 tr2 :
  forallb is_lookup tr1 = true → pulls (tr1 ++ tr2) = pulls tr2.
Proof. apply omap_lookups. lookup_is_none. Qed.

Lemma username_of_raised (base base' : string)
    (reply : result (gmap string string)) (e : exn) :
  username_of base reply = Raised e → username_of base' reply = Raised e.
Proof.
  unfold username_of. destruct reply as [d | e']; [| done].
  by destruct (d !! "name"%string).
Qed.

(** The run of [init_git_repo] on the primary participant, with the run of
    its first block in view. *)
Lemma init_git_repo_run_name (s : S) (args : Args) (at_init : bool) :
  is_primary args = true →
  let n := run h (init_repo_name args) s in
  run h (init_git_repo args at_init) s =
  match outcome n with
  | Ok name =>
      let t := run h (init_from_bind args at_init name) (final n) in
      (outcome t, final t, trace n ++ trace t)
  | Raised e => (Raised e, final n, trace n)
  end.
Proof.
  intros Hp. cbn zeta. rewrite (init_git_repo_run _ _ _ Hp), run_bind.
  destruct (run h (init_repo_name args) s) as [[[name | e] s1] tr1];
    cbn [outcome final trace fst snd]; [| done].
  by destruct (run h (init_from_bind args at_init name) s1) as [[o s2] tr2].
Qed.

(** The name that the first block computes. *)
Lemma init_repo_name_spec (s : S) (args : Args) :
  let n := run h (init_repo_name args) s in
  (∀ name, outcome n = Ok name →
     contains_char slash name = true
     ∧ match hub_model_id args with
       | Some id =>
           (contains_char slash id = true → name = id ∧ trace n = [])
           ∧ last_field (str_split slash name)
             = last_field (str_split slash id)
       | None =>
           last_field (str_split slash name) = Path_name (output_dir args)
           ∨ ∃ cwd, last_field (str_split slash name)
                    = Path_name (cwd +:+ "/" +:+ output_dir args)
       end)
  ∧ (∀ tok reply, (tok, reply) ∈ whoamis (trace n) →
       ∃ base, outcome n = username_of base reply).
Proof.
  unfold init_repo_name, get_full_repo_name, Path_absolute, dict_get, ask,
    invoke, trace, outcome, username_of.
  split.
  - intros name. steps h; intros; simplify_eq.
    all: repeat match goal with
           | H : negb _ = true |- _ => apply negb_true_iff in H
           | H : negb _ = false |- _ => apply negb_false_iff in H
           | H : contains_char slash (Path_name _) = true |- _ =>
               by rewrite Path_name_no_slash in H
           end.
    all: split; [first [done | apply contains_char_app] |].
    all: try (split; [intros; simplify_eq; congruence |]).
    all: rewrite ?last_segment_qualified; try done.
    all: rewrite last_segment_plain by apply Path_name_no_slash; eauto.
  - intros tok reply. steps h; intros; list_mem; try done.
    all: first [by eexists | by exists EmptyString].
Qed.

Lemma init_from_bind_binds (s1 : S) (args : Args) (at_init : bool)
    (repo_name : string) :
  let t := run h (init_from_bind args at_init repo_name) s1 in
  (∀ b, b ∈ binds (trace t) →
     bind_local_dir b = output_dir args ∧ bind_clone_from b = repo_name)
  ∧ whoamis (trace t) = []
  ∧ (∀ repo, outcome t = Ok (Some repo) →
       (∃ b, last (binds (trace t)) = Some b ∧ bind_reply b = Ok repo)
       ∧ pulls (trace t) = [(repo, Ok tt)])
  ∧ outcome t ≠ Ok None
  ∧ (∀ repo e, (repo, Raised e) ∈ pulls (trace t) →
       outcome t = Raised e ∧ exists_tests (trace t) = []
       ∧ writes (trace t) = []).
Proof.
  unfold init_from_bind, ask, invoke, trace, outcome.
  steps h; destruct_units.
  all: repeat split; intros; list_mem; try done; eauto.
Qed.

(** X1. Every [Repository(...)] call of [init_git_repo] is made on the
    output directory with a repository name that holds a [/]; when
    [args.hub_model_id] itself holds a [/], it is passed as it is, and no
    identity lookup is made. *)
Theorem bind_name_is_qualified (s : S) (args : Args) (at_init : bool)
    (b : bind_attempt) :
  let tr := trace (run h (init_git_repo args at_init) s) in
  b ∈ binds tr →
  bind_local_dir b = output_dir args
  ∧ contains_char slash (bind_clone_from b) = true
  ∧ (∀ id, hub_model_id args = Some id → contains_char slash id = true →
       bind_clone_from b = id ∧ whoamis tr = []).
Proof.
  cbn zeta. destruct (is_primary args) eqn:Hp.
  - rewrite (init_git_repo_run_name s args at_init Hp). cbn zeta.
    pose proof (init_repo_name_lookups s args) as Hlk.
    destruct (init_repo_name_spec s args) as [Hname _].
    destruct (outcome (run h (init_repo_name args) s)) as [name | e] eqn:Hn.
    + cbn [trace snd]. rewrite (binds_lookups _ _ Hlk).
      destruct (init_from_bind_binds (final (run h (init_repo_name args) s))
                  args at_init name) as (Hb & Hw & _).
      intros [Hdir Hclone]%Hb. destruct (Hname name eq_refl) as [Hslash Hid].
      rewrite Hclone. split; [done |]. split; [done |].
      intros id Hsome Hslash_id. rewrite Hsome in Hid.
      destruct Hid as [Hid _]. destruct (Hid Hslash_id) as [-> Htr].
      split; [done |]. unfold whoamis in *. rewrite omap_app, Hw.
      by rewrite Htr.
    + cbn [trace snd]. rewrite <- (app_nil_r (trace (run h (init_repo_name args) s))).
      rewrite (binds_lookups _ _ Hlk). intros []%elem_of_nil.
  - unfold init_git_repo. rewrite Hp. cbn. intros []%elem_of_nil.
Qed.

(** X5. The model card that [push_to_hub] writes is titled with the last
    segment of the repository name that [init_git_repo] binds, provided
    that, when no [hub_model_id] is configured, the output directory has a
    final component: [Path(output_dir).absolute().name] and
    [Path(output_dir).name] then agree. *)
Theorem card_title_matches_repo_name (s : S) (args : Args) (at_init : bool)
    (b : bind_attempt) :
  (hub_model_id args = None → Path_name (output_dir args) ≠ EmptyString) →
  b ∈ binds (trace (run h (init_git_repo args at_init) s)) →
  last_field (str_split slash (bind_clone_from b)) = push_model_name args.
Proof.
  intros Hout. destruct (is_primary args) eqn:Hp.
  - rewrite (init_git_repo_run_name s args at_init Hp). cbn zeta.
    pose proof (init_repo_name_lookups s args) as Hlk.
    destruct (init_repo_name_spec s args) as [Hname _].
    destruct (outcome (run h (init_repo_name args) s)) as [name | e] eqn:Hn.
    + cbn [trace snd]. rewrite (binds_lookups _ _ Hlk).
      destruct (init_from_bind_binds (final (run h (init_repo_name args) s))
                  args at_init name) as (Hb & _).
      intros [_ ->]%Hb. destruct (Hname name eq_refl) as [_ Hid].
      unfold push_model_name. destruct (hub_model_id args) as [id |].
      * by destruct Hid.
      * destruct Hid as [-> | (cwd & ->)]; [done |].
        by apply Path_name_absolute, Hout.
    + cbn [trace snd]. rewrite <- (app_nil_r (trace (run h (init_repo_name args) s))).
      rewrite (binds_lookups _ _ Hlk). intros []%elem_of_nil.
  - unfold init_git_repo. rewrite Hp. cbn. intros []%elem_of_nil.
Qed.

(** X2. When the identity lookup of [init_git_repo] gives no user name (it
    raises, or its reply has no [name] field), that exception reaches the
    caller and nothing was touched: no bind, no removal, no pull, no
    existence test, no write. *)
Theorem identity_failure_touches_nothing (s : S) (args : Args)
    (at_init : bool) (tok : option string)
    (reply : result (gmap string string)) (e : exn) :
  let x := run h (init_git_repo args at_init) s in
  (tok, reply) ∈ whoamis (trace x) →
  username_of EmptyString reply = Raised e →
  outcome x = Raised e ∧ mutations (trace x) = []
  ∧ exists_tests (trace x) = [].
Proof.
  cbn zeta. destruct (is_primary args) eqn:Hp.
  - rewrite (init_git_repo_run_name s args at_init Hp). cbn zeta.
    pose proof (init_repo_name_lookups s args) as Hlk.
    destruct (init_repo_name_spec s args) as [_ Hwho].
    destruct (outcome (run h (init_repo_name args) s)) as [name | e'] eqn:Hn.
    + cbn [trace snd outcome fst].
      destruct (init_from_bind_binds (final (run h (init_repo_name args) s))
                  args at_init name) as (_ & Hw & _).
      unfold whoamis in *. rewrite omap_app, Hw, app_nil_r.
      intros (base & Hbase)%Hwho Hraised.
      rewrite (username_of_raised _ base _ _ Hraised) in Hbase. done.
    + cbn [trace snd outcome fst].
      intros (base & Hbase)%Hwho Hraised.
      rewrite (username_of_raised _ base _ _ Hraised) in Hbase.
      simplify_eq. split; [done |].
      rewrite <- (app_nil_r (trace (run h (init_repo_name args) s))).
      by rewrite (mutations_lookups _ _ Hlk), (exists_tests_lookups _ _ Hlk).
  - unfold init_git_repo. rewrite Hp. cbn. intros []%elem_of_nil.
Qed.

(** X3. [init_git_repo] removes nothing but the output directory, and only
    after its first bind has raised an [EnvironmentError] with
    [overwrite_output_dir] and [at_init] both set.  An exception of another
    class from the first bind reaches the caller as it is: no removal, no
    second bind. *)
Theorem wipe_only_after_environment_error (s : S) (args : Args)
    (at_init : bool) :
  let x := run h (init_git_repo args at_init) s in
  (∀ p r, (p, r) ∈ rmtrees (trace x) →
     p = output_dir args
     ∧ overwrite_output_dir args && at_init = true
     ∧ ∃ b1 rest e, binds (trace x) = b1 :: rest
                    ∧ bind_reply b1 = Raised e
                    ∧ is_EnvironmentError e = true)
  ∧ (∀ b1 rest e,
       binds (trace x) = b1 :: rest → bind_reply b1 = Raised e →
       is_EnvironmentError e = false →
       rest = [] ∧ rmtrees (trace x) = [] ∧ outcome x = Raised e).
Proof.
  cbn zeta. on_init_git_repo s args at_init.
  - repeat match goal with H : _ = [] |- _ => rewrite H; clear H end.
    split; intros; list_mem; done.
  - steps h; destruct_units.
    all: split; intros; list_mem; cbn in *; simplify_eq; try done.
    all: try congruence.
    all: repeat split; try done.
    all: eexists _, _, _; split; [reflexivity |]; done.
Qed.

(** X4. [init_git_repo] returns [None] on a participant that is not the
    primary one, and nowhere else.  A repository that it returns is the
    one that its last bind has given, and it was pulled, once, with
    success.  When the pull raises, the exception reaches the caller and
    [.gitignore] is neither tested nor written. *)
Theorem init_returns_bound_repo (s : S) (args : Args) (at_init : bool) :
  let x := run h (init_git_repo args at_init) s in
  (∀ repo, outcome x = Ok (Some repo) →
     is_primary args = true
     ∧ (∃ b, last (binds (trace x)) = Some b ∧ bind_reply b = Ok repo)
     ∧ pulls (trace x) = [(repo, Ok tt)])
  ∧ (outcome x = Ok None ↔ is_primary args = false)
  ∧ (∀ repo e, (repo, Raised e) ∈ pulls (trace x) →
       outcome x = Raised e ∧ exists_tests (trace x) = []
       ∧ writes (trace x) = []).
Proof.
  cbn zeta. destruct (is_primary args) eqn:Hp.
  - rewrite (init_git_repo_run_name s args at_init Hp). cbn zeta.
    pose proof (init_repo_name_lookups s args) as Hlk.
    destruct (outcome (run h (init_repo_name args) s)) as [name | e'] eqn:Hn.
    + cbn [trace snd outcome fst].
      rewrite (binds_lookups _ _ Hlk), (pulls_lookups _ _ Hlk),
        (exists_tests_lookups _ _ Hlk), (writes_lookups _ _ Hlk).
      destruct (init_from_bind_binds (final (run h (init_repo_name args) s))
                  args at_init name) as (_ & _ & Hok & Hnone & Hpull).
      split; [| split].
      * intros repo Hrepo. split; [done |]. by apply Hok.
      * split; [done | discriminate].
      * exact Hpull.
    + cbn [trace snd outcome fst].
      assert (pulls (trace (run h (init_repo_name args) s)) = []) as Hpulls.
      { rewrite <- (app_nil_r (trace (run h (init_repo_name args) s))).
        by rewrite (pulls_lookups _ _ Hlk). }
      rewrite Hpulls. split; [done |]. split; [split; discriminate |].
      intros repo e []%elem_of_nil.
  - unfold init_git_repo. rewrite Hp. cbn. split; [discriminate |].
    split; [done |]. intros repo e []%elem_of_nil.
Qed.

(** *** More on [push_to_hub] *)

(** The ways a run of [push_to_hub] can go, read at its pushes and at its
    write of the model card. *)
Lemma push_to_hub_cases (s : S) (args : Args) (pipeline : DiffusionPipeline)
    (repo : Repository) (commit_message : option string) (blocking : bool) :
  let x := run h (push_to_hub args pipeline repo commit_message blocking) s in
  let first r := Build_push_attempt repo commit_message blocking true r in
  let card_message := Some "update model card README.md"%string in
  let second r := Build_push_attempt repo card_message blocking true r in
  let card r :=
    (readme_path args, @None string, model_card_text (push_model_name args),
     r) in
  (pushes (trace x) = [] ∧ writes (trace x) = []
   ∧ ∀ v, outcome x ≠ Ok (Some v))
  ∨ (∃ e, pushes (trace x) = [first (Raised e)] ∧ writes (trace x) = []
          ∧ outcome x = Raised e)
  ∨ (∃ url e, pushes (trace x) = [first (Ok url)]
              ∧ writes (trace x) = [card (Raised e)]
              ∧ outcome x = Raised e)
  ∨ (∃ url r2, pushes (trace x) = [first (Ok url); second r2]
               ∧ writes (trace x) = [card (Ok tt)]
               ∧ match r2 with
                 | Ok _ =>
                     outcome x = Ok (Some url)
                     ∧ last (trace x)
                       = Some (Ev (repo_push_to_hub repo card_message blocking
                                     true) r2)
                 | Raised e =>
                     if is_EnvironmentError e
                     then outcome x = Ok (Some url)
                          ∧ last (trace x)
                            = Some (Ev (logger_error (model_card_push_error e))
                                       tt)
                     else outcome x = Raised e
                          ∧ last (trace x)
                            = Some (Ev (repo_push_to_hub repo card_message
                                          blocking true) r2)
                 end).
Proof.
  cbn zeta.
  unfold push_to_hub, create_model_card, index_last, attr_of, ask, invoke,
    trace, outcome, model_card_push_error, push_model_name.
  steps h; destruct_units.
  all: first
         [ left; split; [reflexivity |]; split; [reflexivity |]; done
         | right; left; eexists; split; [reflexivity |];
           split; reflexivity
         | right; right; left; eexists _, _; split; [reflexivity |];
           split; reflexivity
         | right; right; right; eexists _, _; split; [reflexivity |];
           split; [reflexivity |]; cbn; use_equations; split; reflexivity ].
Qed.


(** X7. [push_to_hub] pushes at most twice, both times on the repository it
    was given, with the [blocking] it was given and with
    [auto_lfs_prune=True]: first with the caller's commit message, then
    with the fixed message of the model card. *)
Theorem push_calls_shape (s : S) (args : Args)
    (pipeline : DiffusionPipeline) (repo : Repository)
    (commit_message : option string) (blocking : bool) :
  let tr :=
    trace (run h (push_to_hub args pipeline repo commit_message blocking) s) in
  map push_arguments (pushes tr)
  `prefix_of` [(repo, commit_message, blocking, true);
               (repo, Some "update model card README.md"%string, blocking,
                true)].
Proof.
  cbn zeta.
  destruct (push_to_hub_cases s args pipeline repo commit_message blocking)
    as [(Hp & _) | [(e & Hp & _)
         | [(url & e & Hp & _) | (url & r2 & Hp & _)]]];
    rewrite Hp; cbn; solve [by eexists | apply prefix_nil].
Qed.

(** X8. An exception of the push of the model card that is no
    [EnvironmentError] is not swallowed: it reaches the caller, the result
    of the first push is lost, and no log line is written. *)
Theorem model_card_push_other_error_propagates (s : S) (args : Args)
    (pipeline : DiffusionPipeline) (repo : Repository)
    (commit_message : option string) (blocking : bool)
    (p1 p2 : push_attempt) (rest : list push_attempt) (e : exn) :
  let x := run h (push_to_hub args pipeline repo commit_message blocking) s in
  pushes (trace x) = p1 :: p2 :: rest →
  push_reply p2 = Raised e →
  is_EnvironmentError e = false →
  outcome x = Raised e
  ∧ last (trace x)
    = Some (Ev (repo_push_to_hub repo (Some "update model card README.md"%string)
                  blocking true) (Raised e)).
Proof.
  cbn zeta. intros Hpushes Hreply Henv.
  destruct (push_to_hub_cases s args pipeline repo commit_message blocking)
    as [(Hp & _) | [(e' & Hp & _)
         | [(url & e' & Hp & _) | (url & r2 & Hp & _ & Hend)]]];
    rewrite Hp in Hpushes; simplify_eq.
  cbn in Hreply. subst r2. by rewrite Henv in Hend.
Qed.

(** X9. When the write of the model card raises, the exception reaches the
    caller after the checkpoint has been pushed: the first push has
    returned, the second one is not made. *)
Theorem readme_failure_after_checkpoint_push (s : S) (args : Args)
    (pipeline : DiffusionPipeline) (repo : Repository)
    (commit_message : option string) (blocking : bool)
    (w : string * option string * string * result unit) (e : exn) :
  let x := run h (push_to_hub args pipeline repo commit_message blocking) s in
  w ∈ writes (trace x) →
  w.2 = Raised e →
  outcome x = Raised e
  ∧ ∃ p1 url, pushes (trace x) = [p1] ∧ push_reply p1 = Ok url
              ∧ push_commit_message p1 = commit_message.
Proof.
  cbn zeta. intros Hw Hreply.
  destruct (push_to_hub_cases s args pipeline repo commit_message blocking)
    as [(_ & Hwr & _) | [(e' & _ & Hwr & _)
         | [(url & e' & Hp & Hwr & Hout) | (url & r2 & Hp & Hwr & _)]]];
    rewrite Hwr in Hw; list_mem; cbn in Hreply; simplify_eq.
  rewrite Hp. split; [done |]. eexists _, _. by repeat split.
Qed.

(** X11. The guards of the cancellation.  With a queue that every read
    finds the same: an empty queue, or a last entry that is [None], means
    no [is_done] and no kill.  A last command that is done is not killed.
    And when [is_done] or the kill raises, the exception reaches the
    caller and nothing is pushed. *)
Theorem push_cancel_guards (s : S) (args : Args)
    (pipeline : DiffusionPipeline) (repo : Repository)
    (commit_message : option string) (blocking : bool) :
  let x := run h (push_to_hub args pipeline repo commit_message blocking) s in
  (∀ q, Forall (fun q' => q' = q) (queue_reads (trace x)) →
     q = [] ∨ last q = Some None →
     done_queries (trace x) = [] ∧ kills (trace x) = [])
  ∧ (∀ c, (c, Ok true) ∈ done_queries (trace x) → kills (trace x) = [])
  ∧ (∀ c e, (c, Raised e) ∈ done_queries (trace x) →
       kills (trace x) = [] ∧ pushes (trace x) = [] ∧ outcome x = Raised e)
  ∧ (∀ c e, (c, Raised e) ∈ kills (trace x) →
       pushes (trace x) = [] ∧ outcome x = Raised e).
Proof.
  cbn zeta.
  unfold push_to_hub, create_model_card, index_last, attr_of, ask, invoke,
    trace, outcome.
  steps h.
  all: repeat split; intros; list_mem; try done.
  all: repeat match goal with
         | H : Forall _ (_ :: _) |- _ => apply Forall_cons in H as [? H]
         end; simplify_eq.
  all: repeat match goal with H : _ ∨ _ |- _ => destruct H end;
         simplify_eq; cbn in *; try done; try congruence.
Qed.

End AnyHandler.

(** ** Runs in the simulated environment *)

(** The two examples of the naming rule: the user [alice] is logged in. *)
Example get_full_repo_name_user :
  outcome (run sim_handler (get_full_repo_name "foo" None None) sim0)
  = Ok "alice/foo"%string.
Proof. reflexivity. Qed.

Example get_full_repo_name_organization :
  run sim_handler (get_full_repo_name "foo" (Some "acme"%string)
                     (Some "hf_explicit"%string)) sim0
  = (Ok "acme/foo"%string, sim0, []).
Proof. reflexivity. Qed.

(** C1, as stated, fails.  With the explicit token [hf_explicit], a first
    bind that raises an [EnvironmentError], [overwrite_output_dir] and
    [at_init], the bind is made again, and it carries the explicit token,
    not the cached-credential value. *)
Lemma retry_bind_sends_explicit_token :
  hub_token args_retry = Some "hf_explicit"%string
  ∧ ∃ b1 b2,
      binds (trace (run sim_handler (init_git_repo args_retry true)
                      sim_conflict)) = [b1; b2]
      ∧ bind_reply b1 = Raised not_a_git_repo
      ∧ bind_use_auth_token b2 = AuthToken "hf_explicit"
      ∧ bind_use_auth_token b2 ≠ AuthCached.
Proof.
  split; [reflexivity |].
  exists (first_bind args_retry "acme/ddpm" (Raised not_a_git_repo)),
         (retry_bind args_retry "acme/ddpm" (Ok 0%nat)).
  repeat split; first [discriminate | vm_compute; reflexivity].
Qed.

(** The retry of [args_retry] on [sim_conflict] carries the explicit token of
    the first bind. *)
Lemma retry_bind_keeps_credential_witness :
  ∃ b1 b2,
    binds (trace (run sim_handler (init_git_repo args_retry true)
                    sim_conflict)) = [b1; b2]
    ∧ bind_use_auth_token b2 = use_auth_token_of args_retry
    ∧ bind_use_auth_token b2 = bind_use_auth_token b1.
Proof.
  exists (first_bind args_retry "acme/ddpm" (Raised not_a_git_repo)),
         (retry_bind args_retry "acme/ddpm" (Ok 0%nat)).
  assert (binds (trace (run sim_handler (init_git_repo args_retry true)
                          sim_conflict))
          = [first_bind args_retry "acme/ddpm" (Raised not_a_git_repo);
             retry_bind args_retry "acme/ddpm" (Ok 0%nat)]) as Hbinds
    by (vm_compute; reflexivity).
  split; [exact Hbinds |].
  destruct (retry_bind_keeps_credential sim_handler sim_conflict args_retry
              true _ _ _ Hbinds) as (Hcred & Hsame & _).
  split; [exact Hcred | exact Hsame].
Defined.

(** On [sim_conflict] the two binds pass [private=True] and then nothing. *)
Lemma retry_bind_omits_private_witness :
  map bind_private
    (binds (trace (run sim_handler (init_git_repo args_retry true)
                     sim_conflict)))
  `prefix_of` [Some true; None].
Proof.
  exact (proj1 (retry_bind_omits_private sim_handler sim_conflict args_retry
                  true)).
Defined.

(** C5, as stated, fails.  The first bind raises [not_a_git_repo], the
    directory is removed, the second bind raises [hub_unreachable]: the
    exception that reaches the caller is the second one, not the original
    one. *)
Lemma failed_retry_raises_its_own_error :
  let x := run sim_handler (init_git_repo args_retry true) sim_conflict_twice in
  map bind_reply (binds (trace x))
  = [Raised not_a_git_repo; Raised hub_unreachable]
  ∧ rmtrees (trace x) = [("out/ddpm"%string, Ok tt)]
  ∧ outcome x = Raised hub_unreachable
  ∧ outcome x ≠ Raised not_a_git_repo.
Proof.
  cbn zeta. repeat split; first [discriminate | vm_compute; reflexivity].
Qed.

(** On [sim_conflict]: the failed bind, the removal, the second bind. *)
Lemma bind_failure_policy_witness :
  ∃ r2 post,
    mutations (trace (run sim_handler (init_git_repo args_retry true)
                        sim_conflict))
    = Ev (Repository_init "out/ddpm" "acme/ddpm" (AuthToken "hf_explicit")
            (Some true)) (Raised not_a_git_repo)
      :: Ev (shutil_rmtree "out/ddpm") (Ok tt)
      :: Ev (Repository_init "out/ddpm" "acme/ddpm" (AuthToken "hf_explicit")
               None) r2
      :: post.
Proof.
  assert (binds (trace (run sim_handler (init_git_repo args_retry true)
                          sim_conflict))
          = [first_bind args_retry "acme/ddpm" (Raised not_a_git_repo);
             retry_bind args_retry "acme/ddpm" (Ok 0%nat)]) as Hbinds
    by (vm_compute; reflexivity).
  destruct (bind_failure_policy sim_handler sim_conflict args_retry true
              _ _ not_a_git_repo Hbinds eq_refl eq_refl)
    as (r_rm & Hrm & Hrest).
  assert (r_rm = Ok tt) as -> by (vm_compute in Hrm; congruence).
  destruct Hrest as (r2 & post & Hmut & _).
  exists r2, post. exact Hmut.
Defined.

(** C7 in the simulated file system: an output directory without
    [.gitignore] gets one that holds [checkpoint-*/] and nothing else; with
    the strategy [all_checkpoints] it gets none; a [.gitignore] that is
    there keeps its content. *)
Example gitignore_created :
  sim_files (final (run sim_handler (init_git_repo args0 true) sim0))
  !! "out/ddpm/.gitignore"%string = Some "checkpoint-*/"%string.
Proof. vm_compute. reflexivity. Qed.

Example gitignore_not_created :
  sim_files (final (run sim_handler (init_git_repo args_keep_all true) sim0))
  !! "out/ddpm/.gitignore"%string = None.
Proof. vm_compute. reflexivity. Qed.

Example gitignore_kept :
  sim_files
    (final (run sim_handler (init_git_repo args0 true)
              (sim_set_files {[ "out/ddpm/.gitignore"%string := "*.bin"%string ]}
                 sim0)))
  !! "out/ddpm/.gitignore"%string = Some "*.bin"%string.
Proof. vm_compute. reflexivity. Qed.

(** The run of [init_git_repo] in an empty output directory returns a
    repository: it has made the test, which answered no, and the write. *)
Lemma gitignore_seeding_witness :
  ∃ present,
    exists_tests (trace (run sim_handler (init_git_repo args0 true) sim0))
    = [("out/ddpm/.gitignore"%string, present)]
    ∧ writes (trace (run sim_handler (init_git_repo args0 true) sim0))
      = [("out/ddpm/.gitignore"%string, Some "utf-8"%string,
          "checkpoint-*/"%string, Ok tt)].
Proof.
  destruct (gitignore_seeding sim_handler sim0 args0 true)
    as (_ & _ & _ & _ & _ & Hreturn).
  destruct (Hreturn 0%nat) as (present & Htests & Hwrites).
  - vm_compute. reflexivity.
  - assert (present = false) as -> by (vm_compute in Htests; congruence).
    exists false. split; [exact Htests | exact (proj1 Hwrites)].
Defined.

(** C7, as stated, fails.  The output directory holds a [.gitignore] with
    [*.bin] and is no clone; with [overwrite_output_dir] and [at_init] the
    directory is removed, the second bind succeeds, the test finds no
    [.gitignore] any more, and one is written: the file that was there has
    been replaced. *)
Lemma wipe_replaces_existing_gitignore :
  let x :=
    run sim_handler (init_git_repo args_retry true) sim_conflict_gitignore in
  sim_files sim_conflict_gitignore !! "out/ddpm/.gitignore"%string
  = Some "*.bin"%string
  ∧ outcome x = Ok (Some 0%nat)
  ∧ rmtrees (trace x) = [("out/ddpm"%string, Ok tt)]
  ∧ exists_tests (trace x) = [("out/ddpm/.gitignore"%string, false)]
  ∧ sim_files (final x) !! "out/ddpm/.gitignore"%string
    = Some "checkpoint-*/"%string.
Proof. cbn zeta. repeat split; vm_compute; reflexivity. Qed.

(** The one interaction of [create_model_card] on the primary participant. *)
Lemma create_model_card_writes_readme_witness :
  is_primary args0 = true
  ∧ ∃ r, trace (run sim_handler (create_model_card args0 "ddpm") sim0)
         = [Ev (open_w_write "out/ddpm/README.md" None (model_card_text "ddpm"))
               r].
Proof.
  split; [reflexivity |].
  destruct (create_model_card_writes_readme sim_handler sim0 args0 "ddpm"
              eq_refl) as ((r & Htrace & _) & _).
  exists r. exact Htrace.
Defined.

(** A README that is there is replaced. *)
Example readme_replaced :
  sim_files
    (final (run sim_handler (create_model_card args0 "ddpm")
              (sim_set_files {[ "out/ddpm/README.md"%string := "mine"%string ]}
                 sim0)))
  = {[ "out/ddpm/README.md"%string := model_card_text "ddpm" ]}.
Proof. vm_compute. reflexivity. Qed.

(** C2, as stated, fails.  On a participant of rank 1 [push_to_hub] creates
    the output directory and saves the pipeline: the file system is not
    what it was. *)
Lemma non_primary_push_saves_pipeline :
  let x :=
    run sim_handler
      (push_to_hub args_worker 7%nat 0%nat (Some "End of training"%string) true)
      sim0 in
  is_primary args_worker = false
  ∧ mutations (trace x)
    = [Ev (os_makedirs "out/ddpm" true) (Ok tt);
       Ev (save_pretrained 7%nat "out/ddpm") (Ok tt)]
  ∧ sim_files sim0 !! "out/ddpm/model_index.json"%string = None
  ∧ sim_files (final x) !! "out/ddpm/model_index.json"%string
    = Some "{}"%string.
Proof. cbn zeta. repeat split; vm_compute; reflexivity. Qed.

(** On rank 1 the two other entry points do nothing at all. *)
Lemma non_primary_only_saves_witness :
  is_primary args_worker = false
  ∧ run sim_handler (init_git_repo args_worker true) sim0 = (Ok None, sim0, [])
  ∧ run sim_handler (create_model_card args_worker "ddpm") sim0
    = (Ok tt, sim0, []).
Proof.
  split; [reflexivity |].
  destruct (non_primary_only_saves sim_handler sim0 args_worker eq_refl)
    as (Hinit & Hcard & _).
  split; [exact (Hinit true) | exact (Hcard "ddpm"%string)].
Defined.

(** C4 in the simulated environment: a checkpoint push that fails, and a
    model-card push that fails after a checkpoint push that went through. *)
Lemma push_failure_policy_witness :
  outcome (run sim_handler
             (push_to_hub args0 7%nat 0%nat (Some "End of training"%string) true)
             (sim_set_pushes [Raised hub_unreachable] sim0))
  = Raised hub_unreachable
  ∧ outcome (run sim_handler
               (push_to_hub args0 7%nat 0%nat (Some "End of training"%string)
                  true)
               (sim_set_pushes [Ok (PushUrl sim_url); Raised hub_unreachable]
                  sim0))
    = Ok (Some (PushUrl sim_url)).
Proof.
  split.
  - destruct (push_failure_policy sim_handler
                (sim_set_pushes [Raised hub_unreachable] sim0) args0 7%nat
                0%nat (Some "End of training"%string) true) as [Hfirst _].
    refine (proj1 (proj2 (proj2
              (Hfirst (Build_push_attempt 0%nat (Some "End of training"%string)
                         true true (Raised hub_unreachable))
                 [] hub_unreachable _ eq_refl)))).
    vm_compute. reflexivity.
  - destruct (push_failure_policy sim_handler
                (sim_set_pushes [Ok (PushUrl sim_url); Raised hub_unreachable]
                   sim0) args0 7%nat 0%nat (Some "End of training"%string) true)
      as [_ Hsecond].
    refine (proj1 (proj2
              (Hsecond (Build_push_attempt 0%nat
                          (Some "End of training"%string) true true
                          (Ok (PushUrl sim_url)))
                 (Build_push_attempt 0%nat
                    (Some "update model card README.md"%string) true true
                    (Raised hub_unreachable))
                 [] (PushUrl sim_url) hub_unreachable _ eq_refl eq_refl
                 eq_refl))).
    vm_compute. reflexivity.
Defined.

(** C9 on a queue with two pushes in progress.  One [push_to_hub] without
    [blocking] queues two commands, 0 for the checkpoint and 1 for the model
    card, and both still run.  The next [push_to_hub], with [blocking], asks
    and kills command 1 only; command 0 is neither asked nor killed, and it
    still runs when the new pushes are made. *)
Lemma blocking_push_leaves_earlier_push_running :
  let message := Some "End of training"%string in
  let s1 :=
    final (run sim_handler (push_to_hub args0 7%nat 0%nat message false) sim0) in
  let x := run sim_handler (push_to_hub args0 7%nat 0%nat message true) s1 in
  sim_queue s1 = [Some 0%nat; Some 1%nat]
  ∧ sim_running s1 = [0%nat; 1%nat]
  ∧ done_queries (trace x) = [(1%nat, Ok false)]
  ∧ kills (trace x) = [(1%nat, Ok tt)]
  ∧ List.length (pushes (trace x)) = 2%nat
  ∧ sim_running (final x) = [0%nat]
  ∧ sim_killed (final x) = [1%nat].
Proof. cbn zeta. repeat split; vm_compute; reflexivity. Qed.

(** ** Further runs in the simulated environment *)

(** The one bind of [init_git_repo] for [alice], in [out/ddpm]. *)
Lemma init_binds_alice :
  binds (trace (run sim_handler (init_git_repo args0 true) sim0))
  = [first_bind args0 "alice/ddpm" (Ok 0%nat)].
Proof. vm_compute. reflexivity. Qed.

(** X1 for that bind. *)
Lemma bind_name_is_qualified_witness :
  bind_local_dir (first_bind args0 "alice/ddpm" (Ok 0%nat)) = "out/ddpm"%string
  ∧ contains_char slash
      (bind_clone_from (first_bind args0 "alice/ddpm" (Ok 0%nat))) = true.
Proof.
  destruct (bind_name_is_qualified sim_handler sim0 args0 true
              (first_bind args0 "alice/ddpm" (Ok 0%nat))) as (Hdir & Hname & _).
  - rewrite init_binds_alice. apply list_elem_of_singleton. reflexivity.
  - split; [exact Hdir | exact Hname].
Defined.

(** X5 for that bind: the card of [push_to_hub] is titled [ddpm]. *)
Lemma card_title_matches_repo_name_witness :
  last_field (str_split slash "alice/ddpm") = push_model_name args0.
Proof.
  apply (card_title_matches_repo_name sim_handler sim0 args0 true
           (first_bind args0 "alice/ddpm" (Ok 0%nat))).
  - intros _. discriminate.
  - rewrite init_binds_alice. apply list_elem_of_singleton. reflexivity.
Defined.

(** With the output directory [.] the two names part: the repository is
    named after the working directory, the card has an empty title. *)
Example card_title_differs_in_working_directory :
  map bind_clone_from
    (binds (trace (run sim_handler (init_git_repo args_here true) sim0)))
  = ["alice/alice"%string]
  ∧ push_model_name args_here = EmptyString.
Proof. split; vm_compute; reflexivity. Qed.

(** X2 when nobody is logged in. *)
Lemma identity_failure_touches_nothing_witness :
  outcome (run sim_handler (init_git_repo args0 true) sim_logged_out)
  = Raised unauthorized
  ∧ mutations (trace (run sim_handler (init_git_repo args0 true)
                        sim_logged_out)) = [].
Proof.
  destruct (identity_failure_touches_nothing sim_handler sim_logged_out args0
              true None (Raised unauthorized) unauthorized)
    as (Hout & Hmut & _).
  - assert (whoamis (trace (run sim_handler (init_git_repo args0 true)
                              sim_logged_out))
            = [(None, Raised unauthorized)]) as ->
      by (vm_compute; reflexivity).
    apply list_elem_of_singleton. reflexivity.
  - reflexivity.
  - split; [exact Hout | exact Hmut].
Defined.

(** X3 on [sim_conflict]: the removal follows a bind that raised an
    [EnvironmentError]. *)
Lemma wipe_only_after_environment_error_witness :
  overwrite_output_dir args_retry && true = true
  ∧ ∃ b1 rest e,
      binds (trace (run sim_handler (init_git_repo args_retry true)
                      sim_conflict)) = b1 :: rest
      ∧ bind_reply b1 = Raised e ∧ is_EnvironmentError e = true.
Proof.
  destruct (wipe_only_after_environment_error sim_handler sim_conflict
              args_retry true) as [Hwipe _].
  destruct (Hwipe "out/ddpm"%string (Ok tt)) as (_ & Hcond & Hbind).
  - assert (rmtrees (trace (run sim_handler (init_git_repo args_retry true)
                              sim_conflict))
            = [("out/ddpm"%string, Ok tt)]) as ->
      by (vm_compute; reflexivity).
    apply list_elem_of_singleton. reflexivity.
  - split; [exact Hcond | exact Hbind].
Defined.

(** X4 on the plain run: the repository returned was pulled. *)
Lemma init_returns_bound_repo_witness :
  pulls (trace (run sim_handler (init_git_repo args0 true) sim0))
  = [(0%nat, Ok tt)].
Proof.
  destruct (init_returns_bound_repo sim_handler sim0 args0 true)
    as [Hrepo _].
  destruct (Hrepo 0%nat) as (_ & _ & Hpulls).
  - vm_compute. reflexivity.
  - exact Hpulls.
Defined.


(** X8: the hub refuses the push of the model card with an exception that
    is no [EnvironmentError]. *)
Lemma model_card_push_other_error_propagates_witness :
  outcome (run sim_handler
             (push_to_hub args0 7%nat 0%nat (Some "End of training"%string) true)
             (sim_set_pushes [Ok (PushUrl sim_url); Raised bad_request] sim0))
  = Raised bad_request.
Proof.
  refine (proj1 (model_card_push_other_error_propagates sim_handler
                   (sim_set_pushes [Ok (PushUrl sim_url); Raised bad_request]
                      sim0)
                   args0 7%nat 0%nat (Some "End of training"%string) true
                   (Build_push_attempt 0%nat (Some "End of training"%string)
                      true true (Ok (PushUrl sim_url)))
                   (Build_push_attempt 0%nat
                      (Some "update model card README.md"%string) true true
                      (Raised bad_request))
                   [] bad_request _ eq_refl eq_refl)).
  vm_compute. reflexivity.
Defined.

(** X9 on a file system that cannot be written. *)
Lemma readme_failure_after_checkpoint_push_witness :
  outcome (run sim_read_only_handler
             (push_to_hub args0 7%nat 0%nat (Some "End of training"%string) true)
             sim0)
  = Raised read_only
  ∧ ∃ p1 url,
      pushes (trace (run sim_read_only_handler
                       (push_to_hub args0 7%nat 0%nat
                          (Some "End of training"%string) true) sim0))
      = [p1]
      ∧ push_reply p1 = Ok url.
Proof.
  destruct (readme_failure_after_checkpoint_push sim_read_only_handler sim0
              args0 7%nat 0%nat (Some "End of training"%string) true
              ("out/ddpm/README.md"%string, None, model_card_text "ddpm",
               Raised read_only) read_only)
    as (Hout & p1 & url & Hpushes & Hreply & _).
  - assert (writes (trace (run sim_read_only_handler
                             (push_to_hub args0 7%nat 0%nat
                                (Some "End of training"%string) true) sim0))
            = [("out/ddpm/README.md"%string, None, model_card_text "ddpm",
                Raised read_only)]) as ->
      by (vm_compute; reflexivity).
    apply list_elem_of_singleton. reflexivity.
  - reflexivity.
  - split; [exact Hout |]. exists p1, url. split; [exact Hpushes | exact Hreply].
Defined.

(** X10 on a queue with two pushes in progress: the last one is killed
    before the first push. *)
Lemma blocking_push_cancels_last_command_witness :
  last [Some 0%nat; Some 1%nat] = Some (Some 1%nat)
  ∧ ∃ r,
      kills (before_first_push
               (trace (run sim_handler
                         (push_to_hub args0 7%nat 0%nat
                            (Some "End of training"%string) true)
                         sim_two_running)))
      = [(1%nat, r)].
Proof.
  destruct (blocking_push_cancels_last_command sim_handler sim_two_running
              args0 7%nat 0%nat (Some "End of training"%string) true)
    as (_ & _ & Hlast & _).
  apply (Hlast 1%nat [Some 0%nat; Some 1%nat]).
  - vm_compute. reflexivity.
  - vm_compute. repeat constructor.
Defined.

(** X11 on a queue whose last push has finished: it is asked, not killed. *)
Lemma push_cancel_guards_witness :
  kills (trace (run sim_handler
                  (push_to_hub args0 7%nat 0%nat
                     (Some "End of training"%string) true) sim_finished))
  = [].
Proof.
  destruct (push_cancel_guards sim_handler sim_finished args0 7%nat 0%nat
              (Some "End of training"%string) true) as (_ & Hdone & _).
  apply (Hdone 1%nat).
  assert (done_queries
            (trace (run sim_handler
                      (push_to_hub args0 7%nat 0%nat
                         (Some "End of training"%string) true) sim_finished))
          = [(1%nat, Ok true)]) as ->
    by (vm_compute; reflexivity).
  apply list_elem_of_singleton. reflexivity.
Defined.
